(** * Traefik route registration of a Pylon instance

    A shallow embedding of [pylon/core/tools/traefik.py]: the two functions
    [register_traefik_route] and [unregister_traefik_route], which publish
    and retract the route of the running instance in a Redis key-value
    store, remembering the written keys in [context.traefik_redis_keys]. *)

From stdpp Require Import base option list strings gmap pretty.

Open Scope string_scope.
Open Scope list_scope.

(** ** Settings

    The settings are the parsed configuration file.  The sections read by
    the registrar are dictionaries with string keys, as the [.get] calls
    of the code need them to be; their leaves are strings, except in the
    [server] section where the port is usually a number. *)

Inductive scalar :=
| SStr (s : string)
| SInt (n : Z).

(** What an f-string substitution [{v}] produces. *)
Definition py_str (v : scalar) : string :=
  match v with
  | SStr s => s
  | SInt n => pretty n
  end.

(** The [traefik] section: a dictionary whose [redis] entry, when present,
    is itself a dictionary ([tc_redis]), and whose other entries
    ([node_url], [node_hostname], [rootkey], [rule], [entrypoint], ...)
    are strings ([tc_opts]). *)
Record TraefikConfig := {
  tc_redis : option (gmap string string);
  tc_opts : gmap string string
}.

(** [dict()] *)
Definition empty_traefik_config : TraefikConfig :=
  {| tc_redis := None; tc_opts := ∅ |}.

(** Truth value of the dictionary: an empty dictionary is false. *)
Definition traefik_config_truthy (c : TraefikConfig) : bool :=
  match tc_redis c with
  | Some _ => true
  | None => negb (bool_decide (tc_opts c = ∅))
  end.

Definition dict_truthy {V} `{EqDecision V} (d : gmap string V) : bool :=
  negb (bool_decide (d = ∅)).

Record Settings := {
  st_traefik : option TraefikConfig;
  st_server : option (gmap string scalar)
}.

(** ** The context object and the world around it *)

Record Context := {
  debug : bool;
  settings : Settings;
  node_name : string;
  (** [None] while the attribute has not been assigned yet. *)
  traefik_redis_keys : option (list string)
}.

Inductive Level := INFO | ERROR.

(** What the two functions do to the outside, in the order they do it.  A
    store command is recorded when it is issued, whether or not the store
    then answers. *)
Inductive Event :=
| Log (lvl : Level) (msg : string)
| Connect (host : string) (password : option string)
| RedisSet (key value : string)
| RedisDelete (key : string).

Inductive Exn :=
| AttributeError
| ConnectionError
| OutOfFuel.

Record World := {
  context : Context;
  (** [os.environ] *)
  environ : gmap string string;
  (** what [socket.gethostname()] answers *)
  hostname : string;
  (** the content of the Redis store *)
  kv : gmap string string;
  (** how the store answers the commands to come: [true] makes the next
      command raise; when the list is used up the store answers normally *)
  faults : list bool;
  trace : list Event
}.

Definition with_context (c : Context) (w : World) : World :=
  {| context := c; environ := environ w; hostname := hostname w;
     kv := kv w; faults := faults w; trace := trace w |}.

Definition with_keys (ks : option (list string)) (c : Context) : Context :=
  {| debug := debug c; settings := settings c; node_name := node_name c;
     traefik_redis_keys := ks |}.

Definition with_kv (m : gmap string string) (w : World) : World :=
  {| context := context w; environ := environ w; hostname := hostname w;
     kv := m; faults := faults w; trace := trace w |}.

Definition with_faults (fs : list bool) (w : World) : World :=
  {| context := context w; environ := environ w; hostname := hostname w;
     kv := kv w; faults := fs; trace := trace w |}.

Definition with_trace (t : list Event) (w : World) : World :=
  {| context := context w; environ := environ w; hostname := hostname w;
     kv := kv w; faults := faults w; trace := t |}.

(** ** Computations that change the world and may raise *)

Inductive Result (A : Type) :=
| Ok (a : A)
| Raised (e : Exn).
Arguments Ok {A} a.
Arguments Raised {A} e.

Definition M (A : Type) : Type := World → Result A * World.

Definition ret {A} (a : A) : M A := λ w, (Ok a, w).

(** Sequencing: an exception ends the computation, and what was done to
    the world before stays done. *)
Definition bind {A B} (m : M A) (f : A → M B) : M B := λ w,
  match m w with
  | (Ok a, w') => f a w'
  | (Raised e, w') => (Raised e, w')
  end.

Declare Scope py_scope.
Delimit Scope py_scope with py.
Notation "x <- m ;; k" := (bind m (λ x, k))
  (at level 100, m at next level, right associativity) : py_scope.
Notation "m ;; k" := (bind m (λ _, k))
  (at level 100, right associativity) : py_scope.
Open Scope py_scope.

Definition raise {A} (e : Exn) : M A := λ w, (Raised e, w).
Definition get_context : M Context := λ w, (Ok (context w), w).
Definition emit (e : Event) : M unit :=
  λ w, (Ok (), with_trace (trace w ++ [e]) w).

(** [os.environ.get(name)] *)
Definition os_environ_get (name : string) : M (option string) :=
  λ w, (Ok (environ w !! name), w).

(** [socket.gethostname()] *)
Definition socket_gethostname : M string := λ w, (Ok (hostname w), w).

Definition log_info (msg : string) : M unit := emit (Log INFO msg).
Definition log_error (msg : string) : M unit := emit (Log ERROR msg).

(** [context.traefik_redis_keys = ks] *)
Definition assign_keys (ks : list string) : M unit :=
  λ w, (Ok (), with_context (with_keys (Some ks) (context w)) w).

(** [context.traefik_redis_keys], which raises while the attribute is
    not there. *)
Definition read_keys : M (list string) :=
  c <- get_context;;
  match traefik_redis_keys c with
  | Some ks => ret ks
  | None => raise AttributeError
  end.

(** [context.traefik_redis_keys.append(key)] *)
Definition keys_append (key : string) : M unit :=
  ks <- read_keys;; assign_keys (ks ++ [key]).

(** [StrictRedis(host=..., password=...)] *)
Definition StrictRedis (host : string) (password : option string) : M unit :=
  emit (Connect host password).

(** The store answers the next command: normally, or with an exception. *)
Definition store_answer : M unit := λ w,
  let w' := with_faults (tail (faults w)) w in
  match head (faults w) with
  | Some true => (Raised ConnectionError, w')
  | _ => (Ok (), w')
  end.

Definition kv_insert (key value : string) : M unit :=
  λ w, (Ok (), with_kv (<[key := value]> (kv w)) w).

Definition kv_delete (key : string) : M Z :=
  λ w, (Ok (if kv w !! key is Some _ then 1%Z else 0%Z), with_kv (delete key (kv w)) w).

(** [store.set(key, value)] *)
Definition store_set (key value : string) : M unit :=
  emit (RedisSet key value);;
  store_answer;;
  kv_insert key value.

(** [store.delete(key)]; the answer is the number of keys removed. *)
Definition store_delete (key : string) : M Z :=
  emit (RedisDelete key);;
  store_answer;;
  kv_delete key.

(** [ks.pop()] on a list that is not empty: the list without its last
    element, and that element. *)
Definition list_pop (ks : list string) : option (list string * string) :=
  match reverse ks with
  | [] => None
  | k :: _ => Some (take (length ks - 1) ks, k)
  end.

Section Registrar.

(** [pylon.core.constants.SERVER_DEFAULT_PORT] *)
Variable SERVER_DEFAULT_PORT : scalar.

(** [context.debug and os.environ.get("WERKZEUG_RUN_MAIN") != "true"] *)
Definition before_reloader : M bool :=
  c <- get_context;;
  if debug c then
    marker <- os_environ_get "WERKZEUG_RUN_MAIN";;
    ret (negb (bool_decide (marker = Some "true")))
  else ret false.

Definition register_traefik_route : M unit :=
  assign_keys [];;
  dev <- before_reloader;;
  if dev then
    log_info "Running in development mode before reloader is started. Skipping registration"
  else
    c <- get_context;;
    let traefik_config := default empty_traefik_config (st_traefik (settings c)) in
    if negb (traefik_config_truthy traefik_config) then
      log_error "Cannot register route: no traefik config"
    else
      let redis_config := default ∅ (tc_redis traefik_config) in
      if negb (dict_truthy redis_config) then
        log_error "Cannot register route: no redis config"
      else
        local_hostname <- socket_gethostname;;
        let local_port :=
          default SERVER_DEFAULT_PORT
                  (default ∅ (st_server (settings c)) !! "port") in
        let node_name := node_name c in
        let node_url :=
          match tc_opts traefik_config !! "node_url" with
          | Some url => url
          | None =>
            match tc_opts traefik_config !! "node_hostname" with
            | Some h => "http://" +:+ h +:+ ":" +:+ py_str local_port
            | None => "http://" +:+ local_hostname +:+ ":" +:+ py_str local_port
            end
          end in
        log_info ("Registering traefik route for node '" +:+ node_name +:+ "'");;
        StrictRedis (default "localhost" (redis_config !! "host"))
                    (redis_config !! "password");;
        let traefik_rootkey := default "traefik" (tc_opts traefik_config !! "rootkey") in
        let traefik_rule := default "PathPrefix(`/`)" (tc_opts traefik_config !! "rule") in
        let traefik_entrypoint := default "http" (tc_opts traefik_config !! "entrypoint") in
        store_set (traefik_rootkey +:+ "/http/routers/" +:+ node_name +:+ "/rule")
                  traefik_rule;;
        store_set (traefik_rootkey +:+ "/http/routers/" +:+ node_name +:+ "/entrypoints/0")
                  traefik_entrypoint;;
        store_set (traefik_rootkey +:+ "/http/routers/" +:+ node_name +:+ "/service")
                  node_name;;
        store_set (traefik_rootkey +:+ "/http/services/" +:+ node_name
                   +:+ "/loadbalancer/servers/0/url")
                  node_url;;
        keys_append (traefik_rootkey +:+ "/http/routers/" +:+ node_name +:+ "/rule");;
        keys_append (traefik_rootkey +:+ "/http/routers/" +:+ node_name +:+ "/entrypoints/0");;
        keys_append (traefik_rootkey +:+ "/http/routers/" +:+ node_name +:+ "/service");;
        keys_append (traefik_rootkey +:+ "/http/services/" +:+ node_name
                     +:+ "/loadbalancer/servers/0/url").

(** The loop
[[
    while context.traefik_redis_keys:
        key = context.traefik_redis_keys.pop()
        store.delete(key)
]]
    unrolled at most [fuel] times. *)
Fixpoint drain_keys (fuel : nat) : M unit :=
  ks <- read_keys;;
  match list_pop ks with
  | None => ret ()
  | Some (ks', key) =>
    match fuel with
    | O => raise OutOfFuel
    | S fuel' =>
      assign_keys ks';;
      store_delete key;;
      drain_keys fuel'
    end
  end.

Definition unregister_traefik_route : M unit :=
  dev <- before_reloader;;
  if dev then
    log_info "Running in development mode before reloader is started. Skipping unregistration"
  else
    c <- get_context;;
    let traefik_config := default empty_traefik_config (st_traefik (settings c)) in
    if negb (traefik_config_truthy traefik_config) then
      log_error "Cannot unregister route: no traefik config"
    else
      let redis_config := default ∅ (tc_redis traefik_config) in
      if negb (dict_truthy redis_config) then
        log_error "Cannot unregister route: no redis config"
      else
        log_info ("Unregistering traefik route for node '" +:+ node_name c +:+ "'");;
        StrictRedis (default "localhost" (redis_config !! "host"))
                    (redis_config !! "password");;
        (* the loop takes one key off the list each time round *)
        c <- get_context;;
        drain_keys (length (default [] (traefik_redis_keys c))).

(** ** Vocabulary of the statements *)

(** The guard shared by both functions fires: development mode, and the
    reloader has not marked this process as its child. *)
Definition dev_mode_skip (w : World) : bool :=
  debug (context w)
  && negb (bool_decide (environ w !! "WERKZEUG_RUN_MAIN" = Some "true")).

Definition traefik_of (w : World) : TraefikConfig :=
  default empty_traefik_config (st_traefik (settings (context w))).

Definition redis_of (w : World) : gmap string string :=
  default ∅ (tc_redis (traefik_of w)).

(** The proxy section or the store parameters inside it are missing. *)
Definition config_missing (w : World) : bool :=
  negb (traefik_config_truthy (traefik_of w)) || negb (dict_truthy (redis_of w)).

(** All three guards let the call through. *)
Definition guards_pass (w : World) : bool :=
  negb (dev_mode_skip w) && negb (config_missing w).

(** The first [n] commands sent to the store are answered normally. *)
Definition answers_ok (n : nat) (fs : list bool) : bool :=
  forallb negb (take n fs).

(** The key layout of a route, in the order the records are written. *)
Definition route_keys (root_key node : string) : list string :=
  [ root_key +:+ "/http/routers/" +:+ node +:+ "/rule";
    root_key +:+ "/http/routers/" +:+ node +:+ "/entrypoints/0";
    root_key +:+ "/http/routers/" +:+ node +:+ "/service";
    root_key +:+ "/http/services/" +:+ node +:+ "/loadbalancer/servers/0/url" ].

Definition keys_of (w : World) : option (list string) :=
  traefik_redis_keys (context w).

(** Which keys the writes, and the deletions, of a piece of trace name. *)
Definition written_keys (t : list Event) : list string :=
  omap (λ e, match e with RedisSet k _ => Some k | _ => None end) t.

Definition deleted_keys (t : list Event) : list string :=
  omap (λ e, match e with RedisDelete k => Some k | _ => None end) t.

Definition is_store_io (e : Event) : bool :=
  match e with Log _ _ => false | _ => true end.

(** Everything in a piece of trace that touches the store: connections,
    writes and deletions. *)
Definition store_io (t : list Event) : list Event :=
  filter (λ e, is_store_io e = true) t.

(** The connections a piece of trace opens: host and password. *)
Definition connections (t : list Event) : list (string * option string) :=
  omap (λ e, match e with Connect h p => Some (h, p) | _ => None end) t.

Inductive Call := Registration | Unregistration.

(** The message of the guard that stops a call. *)
Definition guard_message (c : Call) (w : World) : Event :=
  let verb := match c with
              | Registration => "register"
              | Unregistration => "unregister"
              end in
  let noun := match c with
              | Registration => "registration"
              | Unregistration => "unregistration"
              end in
  if dev_mode_skip w then
    Log INFO ("Running in development mode before reloader is started. Skipping "
              +:+ noun)
  else if negb (traefik_config_truthy (traefik_of w)) then
    Log ERROR ("Cannot " +:+ verb +:+ " route: no traefik config")
  else
    Log ERROR ("Cannot " +:+ verb +:+ " route: no redis config").

(** *** What the settings say, with the defaults of the code *)

Definition root_key_of (w : World) : string :=
  default "traefik" (tc_opts (traefik_of w) !! "rootkey").

Definition rule_of (w : World) : string :=
  default "PathPrefix(`/`)" (tc_opts (traefik_of w) !! "rule").

Definition entrypoint_of (w : World) : string :=
  default "http" (tc_opts (traefik_of w) !! "entrypoint").

Definition port_of (w : World) : scalar :=
  default SERVER_DEFAULT_PORT
          (default ∅ (st_server (settings (context w))) !! "port").

(** Explicit configured URL, before configured hostname and local port,
    before local machine hostname and local port. *)
Definition reachable_url (w : World) : string :=
  match tc_opts (traefik_of w) !! "node_url" with
  | Some url => url
  | None =>
    match tc_opts (traefik_of w) !! "node_hostname" with
    | Some h => "http://" +:+ h +:+ ":" +:+ py_str (port_of w)
    | None => "http://" +:+ hostname w +:+ ":" +:+ py_str (port_of w)
    end
  end.

Definition route_values (w : World) : list string :=
  [ rule_of w; entrypoint_of w; node_name (context w); reachable_url w ].

(** The log line and the connection that open the main path. *)
Definition opening (what : string) (w : World) : list Event :=
  [ Log INFO (what +:+ " traefik route for node '" +:+ node_name (context w) +:+ "'");
    Connect (default "localhost" (redis_of w !! "host")) (redis_of w !! "password") ].

(** The world [w] after the key list, the store, the answers left and the
    trace have changed; nothing else ever changes. *)
Definition at_ (w : World) (ks : option (list string)) (m : gmap string string)
    (fs : list bool) (t : list Event) : World :=
  {| context := with_keys ks (context w);
     environ := environ w;
     hostname := hostname w;
     kv := m;
     faults := fs;
     trace := t |}.

End Registrar.

(** ** The entry point, [pylon/main.py] *)

(** [c.lower()] and [s.lower()].  Characters outside ASCII are left as
    they are: none of them is lowered by Python to a letter of ["true"]
    or ["yes"], the only strings the result is compared with. *)
Definition ascii_lower (c : Ascii.ascii) : Ascii.ascii :=
  let n := Ascii.N_of_ascii c in
  if ((65 <=? n) && (n <=? 90))%N then Ascii.ascii_of_N (n + 32) else c.

Fixpoint str_lower (s : string) : string :=
  match s with
  | EmptyString => EmptyString
  | String c s' => String (ascii_lower c) (str_lower s')
  end.

(** [CORE_DEVELOPMENT_MODE =
       os.environ.get("CORE_DEVELOPMENT_MODE", "").lower() in ["true", "yes"]],
    computed when the module is loaded. *)
Definition CORE_DEVELOPMENT_MODE (env : gmap string string) : bool :=
  bool_decide
    (str_lower (default EmptyString (env !! "CORE_DEVELOPMENT_MODE"))
     ∈ ["true"; "yes"]).

(** The context that [main] makes on line 72 and fills on lines 74, 77
    and 82; nothing reads it in between.  The node name is kept as the
    text that every use of it formats it to. *)
Definition main_context (env : gmap string string) (host : string)
    (st : Settings) : Context :=
  {| debug := CORE_DEVELOPMENT_MODE env;
     settings := st;
     node_name := py_str (default (SStr host)
                                  (default ∅ (st_server st) !! "name"));
     traefik_redis_keys := None |}.

(** [context = ...] *)
Definition assign_context (c : Context) : M unit :=
  λ w, (Ok (), with_context c w).

Definition os_environ : M (gmap string string) := λ w, (Ok (environ w), w).

(** [try: body finally: final].  The final part runs however the body
    ends; an exception of the final part takes the place of the outcome
    of the body. *)
Definition try_finally {A} (body : M A) (final : M unit) : M A := λ w,
  let (r, w1) := body w in
  match final w1 with
  | (Ok _, w2) => (r, w2)
  | (Raised e, w2) => (Raised e, w2)
  end.

Section Main.

(** [pylon.core.constants.SERVER_DEFAULT_PORT] *)
Variable SERVER_DEFAULT_PORT : scalar.

(** The collaborators of [main], none of them under [src/]:
    lines 67-69, [signal.signal] and [log.enable_logging]; *)
Variable setup_process : M unit.
(** line 77, [seed.load_settings()], [None] standing for a result that is
    [None] or empty; *)
Variable load_settings : M (option Settings).
(** lines 84-90, from [log_loki.enable_loki_logging] to
    [server.add_url_prefix]; *)
Variable prepare : M unit.
(** line 93, [flask.Flask]; line 96, [flask_restful.Api]; *)
Variable make_app make_api : M unit.
(** lines 99-114, from [server.create_socketio_instance] to
    [module_manager.init_modules]; *)
Variable finish_setup : M unit.
(** line 119, [server.run_server], and line 125,
    [module_manager.deinit_modules]. *)
Variable run_server deinit_modules : M unit.

(** The result is the status that [os._exit] was called with, if it
    was. *)
Definition main : M (option Z) :=
  setup_process;;
  log_info "Starting plugin-based Carrier core";;
  log_info "Loading and parsing settings";;
  loaded <- load_settings;;
  match loaded with
  | None =>
    log_error "Settings are empty or invalid. Exiting";;
    ret (Some 1%Z)
  | Some st =>
    env <- os_environ;;
    host <- socket_gethostname;;
    assign_context (main_context env host st);;
    prepare;;
    log_info "Creating Flask application";;
    make_app;;
    log_info "Creating API instance";;
    make_api;;
    log_info "Creating SocketIO instance";;
    finish_setup;;
    register_traefik_route SERVER_DEFAULT_PORT;;
    try_finally run_server
      (log_info "WSGI server stopped";;
       unregister_traefik_route;;
       deinit_modules);;
    log_info "Exiting";;
    ret None
  end.

(** The [finally] part of [main]. *)
Definition finale : M unit :=
  log_info "WSGI server stopped";;
  unregister_traefik_route;;
  deinit_modules.

(** What is left of [main] once the application is set up. *)
Definition serve : M (option Z) :=
  register_traefik_route SERVER_DEFAULT_PORT;;
  try_finally run_server finale;;
  log_info "Exiting";;
  ret None.

End Main.

(** How [main] ends when the server has ended with [r]. *)
Definition ending (r : Result unit) : Result (option Z) :=
  match r with
  | Ok _ => Ok None
  | Raised e => Raised e
  end.

(** The world once [main] has made its context from the settings [st]. *)
Definition booted (st : Settings) (w : World) : World :=
  with_context (main_context (environ w) (hostname w) st) w.

(** A collaborator that ends with [r] and keeps out of the way of the
    registrar: it leaves the context, the environment and the store
    alone and sends the store nothing. *)
Definition ends {A} (m : M A) (r : Result A) : Prop :=
  ∀ w, ∃ t, m w = (r, with_trace (trace w ++ t) w) ∧ store_io t = [].

(** ** Sample worlds *)

Definition sample_config : TraefikConfig :=
  {| tc_redis := Some {[ "host" := "redis" ]};
     tc_opts := {[ "node_hostname" := "pylon" ]} |}.

(** A world with the given development flag, proxy section, key list and
    store answers; the store and the trace are empty. *)
Definition sample_world (dbg : bool) (section : option TraefikConfig)
    (ks : option (list string)) (fs : list bool) : World :=
  {| context :=
       {| debug := dbg;
          settings := {| st_traefik := section;
                         st_server := Some {[ "port" := SInt 8080 ]} |};
          node_name := "n1";
          traefik_redis_keys := ks |};
     environ := ∅;
     hostname := "box";
     kv := ∅;
     faults := fs;
     trace := [] |}.

Definition sample_settings : Settings :=
  {| st_traefik := Some sample_config;
     st_server := Some {[ "port" := SInt 8080 ]} |}.

(** A world for [main] to start in, with the given environment and store
    answers; [main] makes its own context. *)
Definition sample_start (env : gmap string string) (fs : list bool) : World :=
  {| context := {| debug := false;
                   settings := {| st_traefik := None; st_server := None |};
                   node_name := "unset";
                   traefik_redis_keys := None |};
     environ := env;
     hostname := "box";
     kv := {[ "other" := "kept" ]};
     faults := fs;
     trace := [] |}.

(** [main] with collaborators that do nothing but log, around the given
    settings loader and server. *)
Definition sample_main (load : M (option Settings)) (server : M unit) :
    M (option Z) :=
  main (SInt 8080) (log_info "logging enabled") load (ret ()) (ret ()) (ret ())
       (log_info "modules ready") server (log_info "modules gone").

(** ** Steps of the computations *)

Lemma at_self w : at_ w (keys_of w) (kv w) (faults w) (trace w) = w.
Proof. destruct w as [[] ? ? ? ? ?]; reflexivity. Qed.

Lemma bind_Ok {A B} (m : M A) (f : A → M B) w a w' :
  m w = (Ok a, w') → bind m f w = f a w'.
Proof. intros E. unfold bind. now rewrite E. Qed.

Lemma bind_Raised {A B} (m : M A) (f : A → M B) w e w' :
  m w = (Raised e, w') → bind m f w = (Raised e, w').
Proof. intros E. unfold bind. now rewrite E. Qed.

Section Steps.

Context (w : World) (ks : option (list string)) (m : gmap string string)
  (fs : list bool) (t : list Event).

Lemma assign_keys_run ks' :
  assign_keys ks' (at_ w ks m fs t) = (Ok (), at_ w (Some ks') m fs t).
Proof. reflexivity. Qed.

Lemma get_context_run :
  get_context (at_ w ks m fs t) = (Ok (with_keys ks (context w)), at_ w ks m fs t).
Proof. reflexivity. Qed.

Lemma before_reloader_run :
  before_reloader (at_ w ks m fs t) = (Ok (dev_mode_skip w), at_ w ks m fs t).
Proof.
  unfold before_reloader, dev_mode_skip, bind, get_context, os_environ_get, ret.
  cbn [context at_ debug with_keys environ].
  now destruct (debug (context w)).
Qed.

Lemma socket_gethostname_run :
  socket_gethostname (at_ w ks m fs t) = (Ok (hostname w), at_ w ks m fs t).
Proof. reflexivity. Qed.

Lemma emit_run e :
  emit e (at_ w ks m fs t) = (Ok (), at_ w ks m fs (t ++ [e])).
Proof. reflexivity. Qed.

Lemma store_set_Ok key value :
  head fs ≠ Some true →
  store_set key value (at_ w ks m fs t)
  = (Ok (), at_ w ks (<[key := value]> m) (tail fs) (t ++ [RedisSet key value])).
Proof.
  intros H. unfold store_set, bind, emit, store_answer, kv_insert.
  cbn [faults with_trace at_]. destruct (head fs) as [[]|]; done.
Qed.

Lemma store_set_Raised key value :
  head fs = Some true →
  store_set key value (at_ w ks m fs t)
  = (Raised ConnectionError, at_ w ks m (tail fs) (t ++ [RedisSet key value])).
Proof.
  intros H. unfold store_set, bind, emit, store_answer.
  cbn [faults with_trace at_]. now rewrite H.
Qed.

Lemma store_delete_Ok key :
  head fs ≠ Some true →
  store_delete key (at_ w ks m fs t)
  = (Ok (if m !! key is Some _ then 1%Z else 0%Z),
     at_ w ks (delete key m) (tail fs) (t ++ [RedisDelete key])).
Proof.
  intros H. unfold store_delete, bind, emit, store_answer, kv_delete.
  cbn [faults with_trace at_]. destruct (head fs) as [[]|]; done.
Qed.

Lemma store_delete_Raised key :
  head fs = Some true →
  store_delete key (at_ w ks m fs t)
  = (Raised ConnectionError, at_ w ks m (tail fs) (t ++ [RedisDelete key])).
Proof.
  intros H. unfold store_delete, bind, emit, store_answer.
  cbn [faults with_trace at_]. now rewrite H.
Qed.

End Steps.

Lemma read_keys_Ok w ks m fs t :
  read_keys (at_ w (Some ks) m fs t) = (Ok ks, at_ w (Some ks) m fs t).
Proof. reflexivity. Qed.

Lemma read_keys_Raised w m fs t :
  read_keys (at_ w None m fs t) = (Raised AttributeError, at_ w None m fs t).
Proof. reflexivity. Qed.

Lemma keys_append_run w ks m fs t key :
  keys_append key (at_ w (Some ks) m fs t)
  = (Ok (), at_ w (Some (ks ++ [key])) m fs t).
Proof. reflexivity. Qed.

(** One statement of a function body has run. *)
Tactic Notation "step" uconstr(E) :=
  rewrite (bind_Ok _ _ _ _ _ E);
  cbv beta iota zeta;
  cbn [settings node_name debug traefik_redis_keys with_keys negb].

(** A statement has raised. *)
Tactic Notation "stop" uconstr(E) :=
  rewrite (bind_Raised _ _ _ _ _ E).

Lemma answers_ok_S n fs :
  answers_ok (S n) fs = true →
  head fs ≠ Some true ∧ answers_ok n (tail fs) = true.
Proof.
  unfold answers_ok. destruct fs as [|[] fs]; simpl; intros H; try done.
  split; [done|]. now rewrite take_nil.
Qed.

Lemma list_pop_snoc ks k : list_pop (ks ++ [k]) = Some (ks, k).
Proof.
  unfold list_pop. rewrite reverse_snoc, length_app. simpl.
  replace (length ks + 1 - 1) with (length ks) by lia.
  now rewrite take_app_length.
Qed.

Lemma guards_pass_inv w :
  guards_pass w = true →
  dev_mode_skip w = false
  ∧ traefik_config_truthy (traefik_of w) = true
  ∧ dict_truthy (redis_of w) = true.
Proof.
  unfold guards_pass, config_missing.
  destruct (dev_mode_skip w), (traefik_config_truthy (traefik_of w)),
    (dict_truthy (redis_of w)); simpl; intros; done.
Qed.

Lemma tail_drop {A} (l : list A) : tail l = drop 1 l.
Proof. now destruct l. Qed.

Lemma answers_ok_0 fs : answers_ok 0 fs = true.
Proof. unfold answers_ok. now rewrite take_0. Qed.

Lemma answers_ok_add n k fs :
  answers_ok (n + k) fs = answers_ok n fs && answers_ok k (drop n fs).
Proof.
  unfold answers_ok. rewrite <- take_take_drop. apply forallb_app.
Qed.

(** When the answers are not all normal, one of them is the first refusal. *)
Lemma answers_ok_false n fs :
  answers_ok n fs = false →
  ∃ i rest, fs = replicate i false ++ true :: rest ∧ i < n.
Proof.
  revert fs. induction n as [|n IH]; intros fs H.
  - now rewrite answers_ok_0 in H.
  - destruct fs as [|[] fs].
    + discriminate H.
    + exists 0, fs. split; [reflexivity | lia].
    + destruct (IH fs H) as (i & rest & -> & Hi).
      exists (S i), rest. split; [reflexivity | lia].
Qed.

Lemma lookup_foldr_delete (m : gmap string string) ks k :
  k ∈ ks → foldr delete m ks !! k = None.
Proof.
  induction ks as [|k' ks IH]; intros Hk; [by apply elem_of_nil in Hk|].
  cbn [foldr]. destruct (decide (k' = k)) as [->|Hne].
  - apply lookup_delete_eq.
  - rewrite lookup_delete_ne by done. apply IH.
    apply elem_of_cons in Hk as [->|]; done.
Qed.

(** *** The loop of [unregister] *)

(** All deletions answered: the list is drained from its end. *)
Lemma drain_keys_Ok w (ks : list string) : ∀ (fuel : nat) m fs t,
  (length ks ≤ fuel)%nat → answers_ok (length ks) fs = true →
  drain_keys fuel (at_ w (Some ks) m fs t)
  = (Ok (), at_ w (Some []) (foldr delete m ks) (drop (length ks) fs)
                (t ++ (RedisDelete <$> reverse ks))).
Proof.
  induction ks as [|k ks IH] using rev_ind; intros fuel m fs t Hfuel Hfs.
  - cbn [length foldr reverse fmap]. rewrite drop_0.
    change (RedisDelete <$> reverse []) with (@nil Event).
    rewrite (right_id_L [] (++)).
    destruct fuel; cbn [drain_keys];
      now rewrite (bind_Ok _ _ _ _ _ (read_keys_Ok _ _ _ _ _)).
  - rewrite length_app in Hfuel, Hfs. cbn [length] in Hfuel, Hfs.
    rewrite Nat.add_1_r in Hfs.
    destruct fuel as [|fuel]; [lia|].
    apply answers_ok_S in Hfs as [H1 Hfs].
    cbn [drain_keys].
    step (read_keys_Ok _ _ _ _ _). rewrite list_pop_snoc. cbv beta iota.
    step (assign_keys_run _ _ _ _ _ _).
    step (store_delete_Ok _ _ _ _ _ _ H1).
    rewrite IH by (done || lia).
    rewrite foldr_app, reverse_snoc, fmap_cons, length_app. cbn [foldr length].
    rewrite tail_drop, drop_drop, Nat.add_comm, <- (assoc_L (++)).
    reflexivity.
Qed.

(** The answer to deletion number [i] (counting from 0) is a refusal: the
    exception leaves the loop with that key and those after it removed
    from the list, and the keys before it still there. *)
Lemma drain_keys_Raised w (i : nat) : ∀ (ks : list string) (fuel : nat) m rest t,
  (i < length ks)%nat → (length ks ≤ fuel)%nat →
  drain_keys fuel (at_ w (Some ks) m (replicate i false ++ true :: rest) t)
  = (Raised ConnectionError,
     at_ w (Some (take (length ks - S i) ks))
         (foldr delete m (drop (length ks - i) ks)) rest
         (t ++ (RedisDelete <$> take (S i) (reverse ks)))).
Proof.
  induction i as [|i IH]; intros ks fuel m rest t Hi Hfuel.
  all: destruct ks as [|k ks _] using rev_ind; [cbn [length] in Hi; lia|].
  all: rewrite length_app in *; cbn [length] in *.
  all: destruct fuel as [|fuel]; [lia|].
  all: cbn [drain_keys].
  all: step (read_keys_Ok _ _ _ _ _); rewrite list_pop_snoc; cbv beta iota.
  all: step (assign_keys_run _ _ _ _ _ _).
  all: rewrite reverse_snoc; cbn [replicate app].
  - stop (store_delete_Raised _ _ _ (true :: _) _ _ eq_refl). cbn [tail].
    replace (length ks + 1 - 1) with (length ks) by lia.
    rewrite Nat.sub_0_r, take_app_length.
    rewrite drop_ge by (rewrite length_app; cbn [length]; lia).
    now rewrite firstn_cons, take_0.
  - step (store_delete_Ok _ _ _ (false :: _) _ _ ltac:(done)). cbn [tail].
    rewrite IH by lia.
    replace (length ks + 1 - S (S i)) with (length ks - S i) by lia.
    replace (length ks + 1 - S i) with (length ks - i) by lia.
    rewrite take_app_le, drop_app_le, foldr_app by lia.
    rewrite (firstn_cons (S i)), fmap_cons.
    cbn [foldr]. rewrite <- (assoc_L (++)). reflexivity.
Qed.

(** The attribute was never assigned: reading it raises. *)
Lemma drain_keys_no_attribute w fuel m fs t :
  drain_keys fuel (at_ w None m fs t) = (Raised AttributeError, at_ w None m fs t).
Proof.
  destruct fuel; cbn [drain_keys];
    now rewrite (bind_Raised _ _ _ _ _ (read_keys_Raised _ _ _ _)).
Qed.

Lemma guards_pass_false w :
  guards_pass w = false →
  dev_mode_skip w = true
  ∨ dev_mode_skip w = false ∧ traefik_config_truthy (traefik_of w) = false
  ∨ dev_mode_skip w = false ∧ traefik_config_truthy (traefik_of w) = true
    ∧ dict_truthy (redis_of w) = false.
Proof.
  unfold guards_pass, config_missing.
  destruct (dev_mode_skip w), (traefik_config_truthy (traefik_of w)),
    (dict_truthy (redis_of w)); simpl; intros; try done; auto.
Qed.

(** *** [unregister] *)

Lemma unregister_skipped w ks m fs t :
  guards_pass w = false →
  unregister_traefik_route (at_ w ks m fs t)
  = (Ok (), at_ w ks m fs (t ++ [guard_message Unregistration w])).
Proof.
  intros H. unfold unregister_traefik_route, guard_message.
  step (before_reloader_run _ _ _ _ _).
  apply guards_pass_false in H as [Hd|[[Hd Ht]|(Hd & Ht & Hr)]]; rewrite Hd.
  all: cbv beta iota; unfold log_info, log_error.
  - rewrite emit_run; reflexivity.
  - step (get_context_run _ _ _ _ _).
    fold (traefik_of w). rewrite Ht. cbn [negb]. rewrite emit_run; reflexivity.
  - step (get_context_run _ _ _ _ _).
    fold (traefik_of w). fold (redis_of w). rewrite Ht, Hr. cbn [negb]. rewrite emit_run; reflexivity.
Qed.

Lemma unregister_main w ks m fs t :
  guards_pass w = true →
  unregister_traefik_route (at_ w ks m fs t)
  = drain_keys (length (default [] ks))
               (at_ w ks m fs (t ++ opening "Unregistering" w)).
Proof.
  intros (Hd & Ht & Hr)%guards_pass_inv. unfold unregister_traefik_route.
  step (before_reloader_run _ _ _ _ _). rewrite Hd.
  step (get_context_run _ _ _ _ _).
  fold (traefik_of w). fold (redis_of w). rewrite Ht, Hr. cbn [negb].
  unfold log_info, StrictRedis.
  step (emit_run _ _ _ _ _ _).
  step (emit_run _ _ _ _ _ _).
  step (get_context_run _ _ _ _ _).
  unfold opening. now rewrite <- (assoc_L (++)).
Qed.

Lemma unregister_Ok w (ks : list string) m fs t :
  guards_pass w = true → answers_ok (length ks) fs = true →
  unregister_traefik_route (at_ w (Some ks) m fs t)
  = (Ok (), at_ w (Some []) (foldr delete m ks) (drop (length ks) fs)
                (t ++ opening "Unregistering" w ++ (RedisDelete <$> reverse ks))).
Proof.
  intros Hg Hfs. rewrite unregister_main by done. cbn [from_option id].
  rewrite drain_keys_Ok by done. now rewrite <- (assoc_L (++)).
Qed.

Lemma unregister_Raised w (ks : list string) (i : nat) rest m t :
  guards_pass w = true → (i < length ks)%nat →
  unregister_traefik_route
    (at_ w (Some ks) m (replicate i false ++ true :: rest) t)
  = (Raised ConnectionError,
     at_ w (Some (take (length ks - S i) ks))
         (foldr delete m (drop (length ks - i) ks)) rest
         (t ++ opening "Unregistering" w
            ++ (RedisDelete <$> take (S i) (reverse ks)))).
Proof.
  intros Hg Hi. rewrite unregister_main by done. cbn [from_option id].
  rewrite drain_keys_Raised by done. now rewrite <- (assoc_L (++)).
Qed.

Lemma unregister_no_attribute w m fs t :
  guards_pass w = true →
  unregister_traefik_route (at_ w None m fs t)
  = (Raised AttributeError, at_ w None m fs (t ++ opening "Unregistering" w)).
Proof.
  intros Hg. rewrite unregister_main by done. apply drain_keys_no_attribute.
Qed.

(** The same, for a world as it comes. *)
Lemma unregister_skipped_here w :
  guards_pass w = false →
  unregister_traefik_route w
  = (Ok (), at_ w (keys_of w) (kv w) (faults w)
                (trace w ++ [guard_message Unregistration w])).
Proof.
  intros Hg.
  pose proof (unregister_skipped w (keys_of w) (kv w) (faults w) (trace w) Hg) as E.
  now rewrite at_self in E.
Qed.

Lemma unregister_Ok_here w (ks : list string) :
  guards_pass w = true → keys_of w = Some ks →
  answers_ok (length ks) (faults w) = true →
  unregister_traefik_route w
  = (Ok (), at_ w (Some []) (foldr delete (kv w) ks)
                (drop (length ks) (faults w))
                (trace w ++ opening "Unregistering" w
                   ++ (RedisDelete <$> reverse ks))).
Proof.
  intros Hg Hks Hf.
  pose proof (unregister_Ok w ks (kv w) (faults w) (trace w) Hg Hf) as E.
  now rewrite <- Hks, at_self in E.
Qed.

Lemma unregister_Raised_here w (ks : list string) (i : nat) rest :
  guards_pass w = true → keys_of w = Some ks →
  faults w = replicate i false ++ true :: rest → (i < length ks)%nat →
  unregister_traefik_route w
  = (Raised ConnectionError,
     at_ w (Some (take (length ks - S i) ks))
         (foldr delete (kv w) (drop (length ks - i) ks)) rest
         (trace w ++ opening "Unregistering" w
            ++ (RedisDelete <$> take (S i) (reverse ks)))).
Proof.
  intros Hg Hks Hf Hi.
  pose proof (unregister_Raised w ks i rest (kv w) (trace w) Hg Hi) as E.
  now rewrite <- Hks, <- Hf, at_self in E.
Qed.

Lemma unregister_no_attribute_here w :
  guards_pass w = true → keys_of w = None →
  unregister_traefik_route w
  = (Raised AttributeError,
     at_ w None (kv w) (faults w) (trace w ++ opening "Unregistering" w)).
Proof.
  intros Hg Hks.
  pose proof (unregister_no_attribute w (kv w) (faults w) (trace w) Hg) as E.
  rewrite <- Hks, at_self in E. now rewrite E, Hks.
Qed.

Lemma deleted_keys_opening what w t :
  deleted_keys (opening what w ++ t) = deleted_keys t.
Proof. reflexivity. Qed.

Lemma deleted_keys_deletes ks : deleted_keys (RedisDelete <$> ks) = ks.
Proof.
  unfold deleted_keys. induction ks as [|k ks IH]; [reflexivity|].
  csimpl. now rewrite IH.
Qed.

Lemma store_io_log t lvl msg : store_io (t ++ [Log lvl msg]) = store_io t.
Proof.
  unfold store_io. rewrite filter_app, filter_cons_False by (cbn; discriminate).
  rewrite filter_nil. apply (right_id_L [] (++)).
Qed.

Lemma guard_message_level c w :
  ∃ lvl msg, guard_message c w = Log lvl msg
             ∧ (dev_mode_skip w = true → lvl = INFO)
             ∧ (dev_mode_skip w = false → lvl = ERROR).
Proof.
  unfold guard_message.
  destruct (dev_mode_skip w); [|destruct (negb _)];
    eexists _, _; (split; [reflexivity|]); split; done.
Qed.

Lemma config_missing_guards w : config_missing w = true → guards_pass w = false.
Proof. unfold guards_pass. intros ->. apply andb_false_r. Qed.

Lemma dev_mode_skip_guards w : dev_mode_skip w = true → guards_pass w = false.
Proof. unfold guards_pass. now intros ->. Qed.

Section Properties.

Variable SERVER_DEFAULT_PORT : scalar.

Abbreviation register := (register_traefik_route SERVER_DEFAULT_PORT).
Abbreviation reachable := (reachable_url SERVER_DEFAULT_PORT).
Abbreviation values_of := (route_values SERVER_DEFAULT_PORT).

(** The main path of [register] when the store answers all four writes. *)
Lemma register_main w ks m fs t :
  guards_pass w = true → answers_ok 4 fs = true →
  register (at_ w ks m fs t)
  = (Ok (),
     at_ w (Some (route_keys (root_key_of w) (node_name (context w))))
         (foldl (λ m kx, <[kx.1 := kx.2]> m) m
                (zip (route_keys (root_key_of w) (node_name (context w)))
                     (values_of w)))
         (drop 4 fs)
         (t ++ opening "Registering" w
            ++ zip_with RedisSet (route_keys (root_key_of w) (node_name (context w)))
                        (values_of w))).
Proof.
  intros (Hd & Ht & Hr)%guards_pass_inv Hf.
  apply answers_ok_S in Hf as [H1 Hf]. apply answers_ok_S in Hf as [H2 Hf].
  apply answers_ok_S in Hf as [H3 Hf]. apply answers_ok_S in Hf as [H4 _].
  unfold register_traefik_route.
  step (assign_keys_run _ _ _ _ _ _).
  step (before_reloader_run _ _ _ _ _).
  rewrite Hd.
  step (get_context_run _ _ _ _ _).
  fold (traefik_of w). fold (redis_of w). rewrite Ht, Hr. cbn [negb].
  step (socket_gethostname_run _ _ _ _ _).
  unfold log_info, StrictRedis.
  step (emit_run _ _ _ _ _ _).
  step (emit_run _ _ _ _ _ _).
  step (store_set_Ok _ _ _ _ _ _ _ H1).
  step (store_set_Ok _ _ _ _ _ _ _ H2).
  step (store_set_Ok _ _ _ _ _ _ _ H3).
  step (store_set_Ok _ _ _ _ _ _ _ H4).
  step (keys_append_run _ _ _ _ _ _).
  step (keys_append_run _ _ _ _ _ _).
  step (keys_append_run _ _ _ _ _ _).
  rewrite keys_append_run.
  unfold route_keys, route_values, opening, root_key_of, rule_of,
    entrypoint_of, reachable_url, port_of.
  cbn [foldl zip_with fst snd app].
  rewrite <- !(assoc_L (++)); cbn [app].
  replace (tail (tail (tail (tail fs)))) with (drop 4 fs)
    by (destruct fs as [|? [|? [|? [|? ?]]]]; reflexivity).
  reflexivity.
Qed.

(** A call stopped by a guard: the list was emptied, one line was logged. *)
Lemma register_skipped w ks m fs t :
  guards_pass w = false →
  register (at_ w ks m fs t)
  = (Ok (), at_ w (Some []) m fs (t ++ [guard_message Registration w])).
Proof.
  intros H. unfold register_traefik_route, guard_message.
  step (assign_keys_run _ _ _ _ _ _).
  step (before_reloader_run _ _ _ _ _).
  apply guards_pass_false in H as [Hd|[[Hd Ht]|(Hd & Ht & Hr)]]; rewrite Hd.
  all: cbv beta iota; unfold log_info, log_error.
  - rewrite emit_run; reflexivity.
  - step (get_context_run _ _ _ _ _).
    fold (traefik_of w). rewrite Ht. cbn [negb]. rewrite emit_run; reflexivity.
  - step (get_context_run _ _ _ _ _).
    fold (traefik_of w). fold (redis_of w). rewrite Ht, Hr. cbn [negb]. rewrite emit_run; reflexivity.
Qed.

Lemma register_skipped_here w :
  guards_pass w = false →
  register w
  = (Ok (), at_ w (Some []) (kv w) (faults w)
                (trace w ++ [guard_message Registration w])).
Proof.
  intros Hg.
  pose proof (register_skipped w (keys_of w) (kv w) (faults w) (trace w) Hg) as E.
  now rewrite at_self in E.
Qed.

(** The store answers two writes and refuses the third. *)
Lemma register_refused_third w ks m fs t :
  guards_pass w = true →
  register (at_ w ks m (false :: false :: true :: fs) t)
  = (Raised ConnectionError,
     at_ w (Some [])
         (foldl (λ m kx, <[kx.1 := kx.2]> m) m
                (take 2 (zip (route_keys (root_key_of w) (node_name (context w)))
                             (values_of w))))
         fs
         (t ++ opening "Registering" w
            ++ take 3 (zip_with RedisSet
                         (route_keys (root_key_of w) (node_name (context w)))
                         (values_of w)))).
Proof.
  intros (Hd & Ht & Hr)%guards_pass_inv.
  unfold register_traefik_route.
  step (assign_keys_run _ _ _ _ _ _).
  step (before_reloader_run _ _ _ _ _).
  rewrite Hd.
  step (get_context_run _ _ _ _ _).
  fold (traefik_of w). fold (redis_of w). rewrite Ht, Hr. cbn [negb].
  step (socket_gethostname_run _ _ _ _ _).
  unfold log_info, StrictRedis.
  step (emit_run _ _ _ _ _ _).
  step (emit_run _ _ _ _ _ _).
  step (store_set_Ok _ _ _ (false :: _) _ _ _ ltac:(done)). cbn [tail].
  step (store_set_Ok _ _ _ (false :: _) _ _ _ ltac:(done)). cbn [tail].
  stop (store_set_Raised _ _ _ (true :: _) _ _ _ eq_refl). cbn [tail].
  unfold route_keys, route_values, opening, root_key_of, rule_of, entrypoint_of.
  cbn [foldl zip_with take fst snd app].
  rewrite <- !(assoc_L (++)); cbn [app].
  reflexivity.
Qed.

(** ** The claims *)

(** C3.  Whenever the three guards let the call through and the store
    answers the four writes, [register] returns normally, sends the store
    exactly four writes after opening the connection, with the keys of
    the route layout under the root key and the node name, holding the
    rule, the entrypoint, the node name and the reachable URL; the store
    afterwards is the old one with these four records set, so that every
    other key is as it was. *)
Theorem register_writes_four_records w :
  guards_pass w = true → answers_ok 4 (faults w) = true →
  let root := root_key_of w in
  let node := node_name (context w) in
  ∃ w',
    register w = (Ok (), w')
    ∧ trace w' =
        trace w ++ opening "Registering" w ++
        [ RedisSet (root +:+ "/http/routers/" +:+ node +:+ "/rule") (rule_of w);
          RedisSet (root +:+ "/http/routers/" +:+ node +:+ "/entrypoints/0")
                   (entrypoint_of w);
          RedisSet (root +:+ "/http/routers/" +:+ node +:+ "/service") node;
          RedisSet (root +:+ "/http/services/" +:+ node
                    +:+ "/loadbalancer/servers/0/url") (reachable w) ]
    ∧ kv w' =
        <[ root +:+ "/http/services/" +:+ node +:+ "/loadbalancer/servers/0/url"
           := reachable w ]>
        (<[ root +:+ "/http/routers/" +:+ node +:+ "/service" := node ]>
        (<[ root +:+ "/http/routers/" +:+ node +:+ "/entrypoints/0"
            := entrypoint_of w ]>
        (<[ root +:+ "/http/routers/" +:+ node +:+ "/rule" := rule_of w ]>
        (kv w))))
    ∧ ∀ k, k ∉ route_keys root node → kv w' !! k = kv w !! k.
Proof.
  intros Hg Hf root node.
  pose proof (register_main w (keys_of w) (kv w) (faults w) (trace w) Hg Hf) as E.
  rewrite at_self in E. eexists. split; [exact E|].
  split; [reflexivity|]. split; [reflexivity|].
  intros k Hk. cbn [kv at_ route_keys route_values zip_with foldl fst snd].
  fold root node. unfold route_keys in Hk.
  rewrite !lookup_insert_ne; [reflexivity|..]; intros <-; apply Hk.
  all: repeat (first [apply list_elem_of_here | apply list_elem_of_further]).
Qed.

(** C4.  The URL written as the service URL of the route: the configured
    [node_url] as it is, whatever the hostname and port settings; without
    it, [http://{node_hostname}:{port}] for a configured [node_hostname];
    without both, [http://{hostname of the machine}:{port}].  The port is
    the one of the [server] section, or the default port. *)
Theorem register_url_precedence w :
  guards_pass w = true → answers_ok 4 (faults w) = true →
  let opts := tc_opts (traefik_of w) in
  let url_key := root_key_of w +:+ "/http/services/" +:+ node_name (context w)
                 +:+ "/loadbalancer/servers/0/url" in
  let server := default ∅ (st_server (settings (context w))) in
  ∃ w' url port,
    register w = (Ok (), w')
    ∧ last (trace w') = Some (RedisSet url_key url)
    ∧ kv w' !! url_key = Some url
    ∧ (∀ u, opts !! "node_url" = Some u → url = u)
    ∧ (∀ h, opts !! "node_url" = None → opts !! "node_hostname" = Some h →
            url = "http://" +:+ h +:+ ":" +:+ py_str port)
    ∧ (opts !! "node_url" = None → opts !! "node_hostname" = None →
       url = "http://" +:+ hostname w +:+ ":" +:+ py_str port)
    ∧ (∀ p, server !! "port" = Some p → port = p)
    ∧ (server !! "port" = None → port = SERVER_DEFAULT_PORT).
Proof.
  intros Hg Hf opts url_key server.
  pose proof (register_main w (keys_of w) (kv w) (faults w) (trace w) Hg Hf) as E.
  rewrite at_self in E.
  eexists _, (reachable w), (port_of SERVER_DEFAULT_PORT w).
  split; [exact E|].
  split. { cbn [trace at_]. unfold opening, route_keys, route_values.
           cbn [zip_with]. rewrite !last_app. reflexivity. }
  split. { cbn [kv at_ route_keys route_values zip_with foldl fst snd].
           apply lookup_insert_eq. }
  unfold reachable_url, port_of. fold opts server.
  repeat split.
  - now intros u ->.
  - now intros h -> ->.
  - now intros -> ->.
  - now intros p ->.
  - now intros ->.
Qed.

(** C10.  With the proxy section there but without [rootkey], [rule] or
    [entrypoint], [register] does not fail: it returns normally and the
    four records are written with ["traefik"] for a missing root key,
    ["PathPrefix(`/`)"] for a missing rule and ["http"] for a missing
    entrypoint. *)
Theorem register_defaults w :
  guards_pass w = true → answers_ok 4 (faults w) = true →
  let opts := tc_opts (traefik_of w) in
  let node := node_name (context w) in
  ∃ w' root rule entrypoint url,
    register w = (Ok (), w')
    ∧ trace w' =
        trace w ++ opening "Registering" w ++
        [ RedisSet (root +:+ "/http/routers/" +:+ node +:+ "/rule") rule;
          RedisSet (root +:+ "/http/routers/" +:+ node +:+ "/entrypoints/0")
                   entrypoint;
          RedisSet (root +:+ "/http/routers/" +:+ node +:+ "/service") node;
          RedisSet (root +:+ "/http/services/" +:+ node
                    +:+ "/loadbalancer/servers/0/url") url ]
    ∧ (opts !! "rootkey" = None → root = "traefik")
    ∧ (opts !! "rule" = None → rule = "PathPrefix(`/`)")
    ∧ (opts !! "entrypoint" = None → entrypoint = "http")
    ∧ (∀ r, opts !! "rootkey" = Some r → root = r)
    ∧ (∀ r, opts !! "rule" = Some r → rule = r)
    ∧ (∀ e, opts !! "entrypoint" = Some e → entrypoint = e).
Proof.
  intros Hg Hf opts node.
  pose proof (register_main w (keys_of w) (kv w) (faults w) (trace w) Hg Hf) as E.
  rewrite at_self in E.
  eexists _, (root_key_of w), (rule_of w), (entrypoint_of w), (reachable w).
  split; [exact E|]. split; [reflexivity|].
  unfold root_key_of, rule_of, entrypoint_of. fold opts.
  repeat split.
  - now intros ->.
  - now intros ->.
  - now intros ->.
  - now intros r ->.
  - now intros r ->.
  - now intros e ->.
Qed.

(** C5.  When [register] takes its main path with all writes answered and
    the store goes on answering, the [unregister] that follows deletes the
    keys that [register] wrote, each once and in the reverse of the order
    in which they were written, and none of them is in the store
    afterwards. *)
Theorem register_unregister_symmetry w :
  guards_pass w = true → answers_ok 8 (faults w) = true →
  ∃ w1 w2 t1 t2,
    register w = (Ok (), w1)
    ∧ unregister_traefik_route w1 = (Ok (), w2)
    ∧ trace w1 = trace w ++ t1
    ∧ trace w2 = trace w1 ++ t2
    ∧ written_keys t1 = route_keys (root_key_of w) (node_name (context w))
    ∧ deleted_keys t2 = reverse (written_keys t1)
    ∧ (∀ k, k ∈ written_keys t1 → kv w2 !! k = None)
    ∧ keys_of w2 = Some [].
Proof.
  intros Hg Hf. change 8 with (4 + 4) in Hf.
  rewrite answers_ok_add in Hf. apply andb_prop in Hf as [Hf1 Hf2].
  pose proof (register_main w (keys_of w) (kv w) (faults w) (trace w) Hg Hf1) as E.
  rewrite at_self in E.
  do 4 eexists. split; [exact E|].
  split; [apply (unregister_Ok w); [exact Hg | exact Hf2]|].
  split; [reflexivity|]. split; [reflexivity|].
  split; [reflexivity|].
  split. { rewrite deleted_keys_opening, deleted_keys_deletes. reflexivity. }
  split; [|reflexivity].
  intros k Hk. cbn [kv at_]. apply lookup_foldr_delete. exact Hk.
Qed.

(** C1 (as amended).  When the store answers two of the four writes of
    [register] and refuses the third, the exception leaves [register]
    before any key is recorded: the key list is empty although two records
    are in the store, and the [unregister] that follows connects, deletes
    nothing and leaves the two records where they are. *)
Theorem register_partial_failure w fs :
  guards_pass w = true → faults w = false :: false :: true :: fs →
  let root := root_key_of w in
  let node := node_name (context w) in
  ∃ w1 w2,
    register w = (Raised ConnectionError, w1)
    ∧ keys_of w1 = Some []
    ∧ trace w1 =
        trace w ++ opening "Registering" w ++
        [ RedisSet (root +:+ "/http/routers/" +:+ node +:+ "/rule") (rule_of w);
          RedisSet (root +:+ "/http/routers/" +:+ node +:+ "/entrypoints/0")
                   (entrypoint_of w);
          RedisSet (root +:+ "/http/routers/" +:+ node +:+ "/service") node ]
    ∧ kv w1 =
        <[ root +:+ "/http/routers/" +:+ node +:+ "/entrypoints/0"
           := entrypoint_of w ]>
        (<[ root +:+ "/http/routers/" +:+ node +:+ "/rule" := rule_of w ]> (kv w))
    ∧ unregister_traefik_route w1 = (Ok (), w2)
    ∧ trace w2 = trace w1 ++ opening "Unregistering" w
    ∧ deleted_keys (trace w2) = deleted_keys (trace w)
    ∧ kv w2 = kv w1
    ∧ keys_of w2 = Some [].
Proof.
  intros Hg Hfs root node.
  pose proof (register_refused_third w (keys_of w) (kv w) fs (trace w) Hg) as E.
  rewrite <- Hfs, at_self in E.
  do 2 eexists. split; [exact E|].
  split; [reflexivity|]. split; [reflexivity|]. split; [reflexivity|].
  split; [apply (unregister_Ok w []); [exact Hg | apply answers_ok_0]|].
  split; [reflexivity|]. split; [|split; reflexivity].
  cbn [trace at_]. unfold deleted_keys. rewrite !omap_app. cbn.
  now rewrite !(right_id_L [] (++)).
Qed.

(** C2 (as amended).  After a [register] that succeeds, the key list holds
    the keys written by that call, in the order of the writes.  After an
    [unregister] that runs its main path and returns, the key list is
    empty, and it does return when the store answers every deletion.
    After an [unregister] stopped by a guard, the key list is what it was
    before the call. *)
Theorem key_list_invariant w :
  (guards_pass w = true → answers_ok 4 (faults w) = true →
   ∃ w' t, register w = (Ok (), w')
           ∧ trace w' = trace w ++ t
           ∧ written_keys t = route_keys (root_key_of w) (node_name (context w))
           ∧ keys_of w' = Some (written_keys t))
  ∧ (guards_pass w = true →
     (∀ w', unregister_traefik_route w = (Ok (), w') → keys_of w' = Some [])
     ∧ (∀ ks, keys_of w = Some ks → answers_ok (length ks) (faults w) = true →
              ∃ w', unregister_traefik_route w = (Ok (), w')))
  ∧ (guards_pass w = false →
     ∃ w', unregister_traefik_route w = (Ok (), w') ∧ keys_of w' = keys_of w).
Proof.
  split; [|split].
  - intros Hg Hf.
    pose proof (register_main w (keys_of w) (kv w) (faults w) (trace w) Hg Hf) as E.
    rewrite at_self in E. do 2 eexists. split; [exact E|].
    split; [reflexivity|]. split; reflexivity.
  - intros Hg. split.
    + intros w' E.
      destruct (keys_of w) as [ks|] eqn:Hks.
      * destruct (answers_ok (length ks) (faults w)) eqn:Hf.
        -- rewrite (unregister_Ok_here w ks) in E by done. now inversion E.
        -- apply answers_ok_false in Hf as (i & rest & Hf & Hi).
           rewrite (unregister_Raised_here w ks i rest) in E by done.
           discriminate E.
      * rewrite unregister_no_attribute_here in E by done. discriminate E.
    + intros ks Hks Hf. eexists. apply (unregister_Ok_here w ks Hg Hks Hf).
  - intros Hg. eexists. split.
    + now apply unregister_skipped_here.
    + reflexivity.
Qed.

(** C6 (as amended).  On the main path of [unregister], as long as the
    store answers, every key is taken off the end of the list and deleted
    once, whether or not the store held it, and the list ends empty.  A
    deletion that the store refuses raises out of the loop: that key and
    the keys after it are off the list and are not tried again, and the
    keys before it stay on the list and in the store. *)
Theorem unregister_drain w (ks : list string) :
  guards_pass w = true → keys_of w = Some ks →
  (answers_ok (length ks) (faults w) = true →
   ∃ w', unregister_traefik_route w = (Ok (), w')
         ∧ keys_of w' = Some []
         ∧ trace w' = trace w ++ opening "Unregistering" w
                      ++ (RedisDelete <$> reverse ks))
  ∧ (∀ (i : nat) rest,
       faults w = replicate i false ++ true :: rest → (i < length ks)%nat →
       ∃ w', unregister_traefik_route w = (Raised ConnectionError, w')
             ∧ keys_of w' = Some (take (length ks - S i) ks)
             ∧ trace w' = trace w ++ opening "Unregistering" w
                          ++ (RedisDelete <$> take (S i) (reverse ks))
             ∧ kv w' = foldr delete (kv w) (drop (length ks - i) ks)
             ∧ faults w' = rest).
Proof.
  intros Hg Hks. split.
  - intros Hf. eexists. split.
    + apply (unregister_Ok_here w ks Hg Hks Hf).
    + split; reflexivity.
  - intros i rest Hf Hi. eexists. split.
    + apply (unregister_Raised_here w ks i rest Hg Hks Hf Hi).
    + repeat split; reflexivity.
Qed.

(** C7.  With the proxy section or the store parameters missing,
    [unregister] returns after one log line, an error unless the
    development-mode guard has stopped the call before; it sends nothing
    to the store and the key list is what it was. *)
Theorem unregister_missing_config w :
  config_missing w = true →
  ∃ w' lvl msg,
    unregister_traefik_route w = (Ok (), w')
    ∧ trace w' = trace w ++ [Log lvl msg]
    ∧ (dev_mode_skip w = false → lvl = ERROR)
    ∧ keys_of w' = keys_of w
    ∧ kv w' = kv w
    ∧ faults w' = faults w.
Proof.
  intros Hg%config_missing_guards.
  destruct (guard_message_level Unregistration w) as (lvl & msg & Hm & _ & Hl).
  eexists _, lvl, msg. split.
  - now apply unregister_skipped_here.
  - cbn [trace at_]. rewrite Hm. repeat split; done.
Qed.

(** C8.  With the development flag set and the marker of the reloader not
    equal to ["true"], [register] and [unregister] both return after one
    information line: no connection, no command to the store, nothing
    changed in it. *)
Theorem development_mode_short_circuit w :
  debug (context w) = true →
  environ w !! "WERKZEUG_RUN_MAIN" ≠ Some "true" →
  ∃ w1 w2 msg1 msg2,
    register w = (Ok (), w1)
    ∧ trace w1 = trace w ++ [Log INFO msg1]
    ∧ store_io (trace w1) = store_io (trace w)
    ∧ kv w1 = kv w ∧ faults w1 = faults w
    ∧ unregister_traefik_route w = (Ok (), w2)
    ∧ trace w2 = trace w ++ [Log INFO msg2]
    ∧ store_io (trace w2) = store_io (trace w)
    ∧ kv w2 = kv w ∧ faults w2 = faults w.
Proof.
  intros Hdbg Hmark.
  assert (dev_mode_skip w = true) as Hd.
  { unfold dev_mode_skip. rewrite Hdbg. cbn [andb].
    now rewrite bool_decide_eq_false_2. }
  pose proof (dev_mode_skip_guards w Hd) as Hg.
  destruct (guard_message_level Registration w) as (l1 & m1 & Hm1 & Hl1 & _).
  destruct (guard_message_level Unregistration w) as (l2 & m2 & Hm2 & Hl2 & _).
  rewrite (Hl1 Hd) in Hm1. rewrite (Hl2 Hd) in Hm2.
  eexists _, _, m1, m2. split.
  { now apply register_skipped_here. }
  cbn [trace kv faults at_]. rewrite Hm1.
  split; [reflexivity|]. split; [apply store_io_log|].
  split; [reflexivity|]. split; [reflexivity|].
  split.
  { now apply unregister_skipped_here. }
  cbn [trace kv faults at_]. rewrite Hm2.
  split; [reflexivity|]. split; [apply store_io_log|]. split; reflexivity.
Qed.

(** C9.  [register] starts by emptying the key list, before any guard is
    looked at: what it does never depends on the list it finds, and after
    a call stopped by a guard the list is empty, whatever it held. *)
Theorem register_resets_key_list w :
  (∀ ks, register (with_context (with_keys ks (context w)) w)
         = register (with_context (with_keys (Some []) (context w)) w))
  ∧ (guards_pass w = false →
     ∃ w', register w = (Ok (), w') ∧ keys_of w' = Some []).
Proof.
  split.
  - intros ks.
    change (with_context (with_keys ks (context w)) w)
      with (at_ w ks (kv w) (faults w) (trace w)).
    change (with_context (with_keys (Some []) (context w)) w)
      with (at_ w (Some []) (kv w) (faults w) (trace w)).
    unfold register_traefik_route.
    now rewrite !(bind_Ok _ _ _ _ _ (assign_keys_run _ _ _ _ _ _)).
  - intros Hg. eexists. split.
    + now apply register_skipped_here.
    + reflexivity.
Qed.

End Properties.

(** [unregister] never runs out of the unrollings it is given: its loop
    is entered with as many as the list is long. *)
Lemma unregister_enough_fuel w : (unregister_traefik_route w).1 ≠ Raised OutOfFuel.
Proof.
  destruct (guards_pass w) eqn:Hg.
  - destruct (keys_of w) as [ks|] eqn:Hks.
    + destruct (answers_ok (length ks) (faults w)) eqn:Hf.
      * now rewrite (unregister_Ok_here w ks).
      * apply answers_ok_false in Hf as (i & rest & Hf & Hi).
        now rewrite (unregister_Raised_here w ks i rest).
    + now rewrite unregister_no_attribute_here.
  - now rewrite unregister_skipped_here.
Qed.

(** ** The claims on sample worlds *)

Ltac computed := vm_compute; repeat split; (reflexivity || discriminate).

(** C1, as it was stated, fails: two writes answered and the third
    refused leave two records in the store and an empty key list, and the
    call of [unregister] that follows deletes nothing. *)
Lemma partial_failure_counterexample :
  let w := sample_world false (Some sample_config) None [false; false; true] in
  let w1 := (register_traefik_route (SInt 8080) w).2 in
  let w2 := (unregister_traefik_route w1).2 in
  guards_pass w = true
  ∧ (register_traefik_route (SInt 8080) w).1 = Raised ConnectionError
  ∧ kv w1 !! "traefik/http/routers/n1/rule" = Some "PathPrefix(`/`)"
  ∧ kv w1 !! "traefik/http/routers/n1/entrypoints/0" = Some "http"
  ∧ keys_of w1 ≠ Some [ "traefik/http/routers/n1/rule";
                        "traefik/http/routers/n1/entrypoints/0" ]
  ∧ deleted_keys (trace w2) ≠ [ "traefik/http/routers/n1/entrypoints/0";
                                "traefik/http/routers/n1/rule" ]
  ∧ deleted_keys (trace w2) = [].
Proof. computed. Qed.

Lemma register_partial_failure_witness :
  let w := sample_world false (Some sample_config) None [false; false; true] in
  guards_pass w = true
  ∧ faults w = [false; false; true]
  ∧ ∃ w1 w2,
      register_traefik_route (SInt 8080) w = (Raised ConnectionError, w1)
      ∧ keys_of w1 = Some []
      ∧ unregister_traefik_route w1 = (Ok (), w2)
      ∧ deleted_keys (trace w2) = [].
Proof.
  intros w.
  assert (guards_pass w = true) as Hg by (vm_compute; reflexivity).
  assert (faults w = [false; false; true]) as Hf by reflexivity.
  split; [exact Hg|]. split; [exact Hf|].
  destruct (register_partial_failure (SInt 8080) w [] Hg Hf)
    as (w1 & w2 & E1 & K1 & _ & _ & E2 & _ & D & _).
  exists w1, w2. repeat split; assumption.
Defined.

(** C2, as it was stated, fails: an [unregister] stopped by the guard on
    the proxy section leaves a key list that is not empty. *)
Lemma early_return_counterexample :
  let w := sample_world false None (Some ["traefik/http/routers/n1/rule"]) [] in
  (unregister_traefik_route w).1 = Ok ()
  ∧ keys_of (unregister_traefik_route w).2 = Some ["traefik/http/routers/n1/rule"]
  ∧ keys_of (unregister_traefik_route w).2 ≠ Some [].
Proof. computed. Qed.

Lemma key_list_invariant_witness :
  let w := sample_world false (Some sample_config) (Some ["a"; "b"]) [] in
  let v := sample_world false None (Some ["a"; "b"]) [] in
  (∃ w', register_traefik_route (SInt 8080) w = (Ok (), w')
         ∧ keys_of w' = Some (route_keys "traefik" "n1"))
  ∧ (∃ w', unregister_traefik_route w = (Ok (), w') ∧ keys_of w' = Some [])
  ∧ (∃ w', unregister_traefik_route v = (Ok (), w')
           ∧ keys_of w' = Some ["a"; "b"]).
Proof.
  intros w v.
  assert (guards_pass w = true) as Hg by (vm_compute; reflexivity).
  assert (guards_pass v = false) as Hv by (vm_compute; reflexivity).
  destruct (key_list_invariant (SInt 8080) w) as (R & U & _).
  destruct (key_list_invariant (SInt 8080) v) as (_ & _ & S).
  split; [|split].
  - destruct (R Hg eq_refl) as (w' & t & E & _ & Ht & K).
    exists w'. split; [exact E|]. now rewrite K, Ht.
  - destruct (U Hg) as (Hempty & Hret).
    destruct (Hret ["a"; "b"] eq_refl eq_refl) as (w' & E).
    exists w'. split; [exact E | exact (Hempty w' E)].
  - destruct (S Hv) as (w' & E & K). exists w'. split; [exact E | exact K].
Defined.

Lemma register_writes_four_records_witness :
  let w := sample_world false (Some sample_config) None [] in
  guards_pass w = true
  ∧ answers_ok 4 (faults w) = true
  ∧ ∃ w',
      register_traefik_route (SInt 8080) w = (Ok (), w')
      ∧ store_io (trace w') =
          [ Connect "redis" None;
            RedisSet "traefik/http/routers/n1/rule" "PathPrefix(`/`)";
            RedisSet "traefik/http/routers/n1/entrypoints/0" "http";
            RedisSet "traefik/http/routers/n1/service" "n1";
            RedisSet "traefik/http/services/n1/loadbalancer/servers/0/url"
                     "http://pylon:8080" ].
Proof.
  intros w.
  assert (guards_pass w = true) as Hg by (vm_compute; reflexivity).
  assert (answers_ok 4 (faults w) = true) as Hf by reflexivity.
  split; [exact Hg|]. split; [exact Hf|].
  destruct (register_writes_four_records (SInt 8080) w Hg Hf) as (w' & E & T & _).
  exists w'. split; [exact E|]. rewrite T. vm_compute. reflexivity.
Defined.

Lemma register_url_precedence_witness :
  let w := sample_world false (Some sample_config) None [] in
  guards_pass w = true
  ∧ answers_ok 4 (faults w) = true
  ∧ ∃ w',
      register_traefik_route (SInt 8080) w = (Ok (), w')
      ∧ kv w' !! "traefik/http/services/n1/loadbalancer/servers/0/url"
        = Some "http://pylon:8080".
Proof.
  intros w.
  assert (guards_pass w = true) as Hg by (vm_compute; reflexivity).
  assert (answers_ok 4 (faults w) = true) as Hf by reflexivity.
  split; [exact Hg|]. split; [exact Hf|].
  destruct (register_url_precedence (SInt 8080) w Hg Hf)
    as (w' & url & port & E & _ & K & _ & Hh & _ & Hp & _).
  exists w'. split; [exact E|].
  rewrite (Hp (SInt 8080) eq_refl) in Hh.
  rewrite (Hh "pylon" eq_refl eq_refl) in K. exact K.
Defined.

Lemma register_unregister_symmetry_witness :
  let w := sample_world false (Some sample_config) None [] in
  guards_pass w = true
  ∧ answers_ok 8 (faults w) = true
  ∧ ∃ w1 w2,
      register_traefik_route (SInt 8080) w = (Ok (), w1)
      ∧ unregister_traefik_route w1 = (Ok (), w2)
      ∧ kv w2 !! "traefik/http/routers/n1/rule" = None.
Proof.
  intros w.
  assert (guards_pass w = true) as Hg by (vm_compute; reflexivity).
  assert (answers_ok 8 (faults w) = true) as Hf by reflexivity.
  split; [exact Hg|]. split; [exact Hf|].
  destruct (register_unregister_symmetry (SInt 8080) w Hg Hf)
    as (w1 & w2 & t1 & t2 & E1 & E2 & _ & _ & W & _ & G & _).
  exists w1, w2. split; [exact E1|]. split; [exact E2|].
  apply G. rewrite W. apply list_elem_of_here.
Defined.

(** C6, as it was stated, fails: a refused deletion ends the loop, and
    the keys not yet reached stay on the list. *)
Lemma refused_delete_counterexample :
  let w := sample_world false (Some sample_config) (Some ["a"; "b"]) [true] in
  guards_pass w = true
  ∧ (unregister_traefik_route w).1 = Raised ConnectionError
  ∧ keys_of (unregister_traefik_route w).2 = Some ["a"]
  ∧ keys_of (unregister_traefik_route w).2 ≠ Some []
  ∧ deleted_keys (trace (unregister_traefik_route w).2) = ["b"].
Proof. computed. Qed.

Lemma unregister_drain_witness :
  let w := sample_world false (Some sample_config) (Some ["a"; "b"; "c"])
                        [false; true] in
  guards_pass w = true
  ∧ keys_of w = Some ["a"; "b"; "c"]
  ∧ ∃ w', unregister_traefik_route w = (Raised ConnectionError, w')
          ∧ keys_of w' = Some ["a"]
          ∧ deleted_keys (trace w') = ["c"; "b"].
Proof.
  intros w.
  assert (guards_pass w = true) as Hg by (vm_compute; reflexivity).
  assert (keys_of w = Some ["a"; "b"; "c"]) as Hk by reflexivity.
  split; [exact Hg|]. split; [exact Hk|].
  destruct (unregister_drain w ["a"; "b"; "c"] Hg Hk) as (_ & R).
  destruct (R 1 [] eq_refl ltac:(cbn; lia)) as (w' & E & K & T & _).
  exists w'. split; [exact E|]. split; [exact K|]. rewrite T. reflexivity.
Defined.

Lemma unregister_missing_config_witness :
  let w := sample_world false None (Some ["a"]) [] in
  config_missing w = true
  ∧ ∃ w', unregister_traefik_route w = (Ok (), w')
          ∧ keys_of w' = Some ["a"]
          ∧ store_io (trace w') = [].
Proof.
  intros w.
  assert (config_missing w = true) as Hc by (vm_compute; reflexivity).
  split; [exact Hc|].
  destruct (unregister_missing_config w Hc) as (w' & lvl & msg & E & T & _ & K & _).
  exists w'. split; [exact E|]. split; [exact K|]. rewrite T. reflexivity.
Defined.

Lemma development_mode_short_circuit_witness :
  let w := sample_world true (Some sample_config) (Some ["a"]) [] in
  debug (context w) = true
  ∧ environ w !! "WERKZEUG_RUN_MAIN" ≠ Some "true"
  ∧ ∃ w1 w2,
      register_traefik_route (SInt 8080) w = (Ok (), w1)
      ∧ store_io (trace w1) = []
      ∧ unregister_traefik_route w = (Ok (), w2)
      ∧ store_io (trace w2) = [].
Proof.
  intros w.
  assert (debug (context w) = true) as Hd by reflexivity.
  assert (environ w !! "WERKZEUG_RUN_MAIN" ≠ Some "true") as Hm
    by (vm_compute; discriminate).
  split; [exact Hd|]. split; [exact Hm|].
  destruct (development_mode_short_circuit (SInt 8080) w Hd Hm)
    as (w1 & w2 & m1 & m2 & E1 & T1 & _ & _ & _ & E2 & T2 & _).
  exists w1, w2. split; [exact E1|]. split; [rewrite T1; reflexivity|].
  split; [exact E2|]. rewrite T2. reflexivity.
Defined.

Lemma register_resets_key_list_witness :
  let w := sample_world true (Some sample_config) (Some ["a"]) [] in
  guards_pass w = false
  ∧ ∃ w', register_traefik_route (SInt 8080) w = (Ok (), w')
          ∧ keys_of w' = Some [].
Proof.
  intros w.
  assert (guards_pass w = false) as Hg by (vm_compute; reflexivity).
  split; [exact Hg|].
  destruct (register_resets_key_list (SInt 8080) w) as (_ & R).
  exact (R Hg).
Defined.

Lemma register_defaults_witness :
  let w := sample_world false (Some sample_config) None [] in
  guards_pass w = true
  ∧ answers_ok 4 (faults w) = true
  ∧ tc_opts (traefik_of w) !! "rootkey" = None
  ∧ tc_opts (traefik_of w) !! "rule" = None
  ∧ tc_opts (traefik_of w) !! "entrypoint" = None
  ∧ ∃ w' url,
      register_traefik_route (SInt 8080) w = (Ok (), w')
      ∧ written_keys (trace w') = route_keys "traefik" "n1"
      ∧ store_io (trace w') =
          [ Connect "redis" None;
            RedisSet "traefik/http/routers/n1/rule" "PathPrefix(`/`)";
            RedisSet "traefik/http/routers/n1/entrypoints/0" "http";
            RedisSet "traefik/http/routers/n1/service" "n1";
            RedisSet "traefik/http/services/n1/loadbalancer/servers/0/url" url ].
Proof.
  intros w.
  assert (guards_pass w = true) as Hg by (vm_compute; reflexivity).
  assert (answers_ok 4 (faults w) = true) as Hf by reflexivity.
  split; [exact Hg|]. split; [exact Hf|].
  split; [vm_compute; reflexivity|]. split; [vm_compute; reflexivity|].
  split; [vm_compute; reflexivity|].
  destruct (register_defaults (SInt 8080) w Hg Hf)
    as (w' & root & rule & ep & url & E & T & Hroot & Hrule & Hep & _).
  rewrite Hroot, Hrule, Hep in T by (vm_compute; reflexivity).
  exists w', url. split; [exact E|]. rewrite T. split; reflexivity.
Defined.


(** * Further properties of the two functions *)

(** The four keys of a route are four different keys. *)
Lemma route_keys_NoDup root node : NoDup (route_keys root node).
Proof.
  unfold route_keys.
  repeat (apply NoDup_cons; split); [..|apply NoDup_nil_2].
  all: rewrite ?elem_of_cons, elem_of_nil.
  all: intros H; repeat (destruct H as [H|H]); try done.
  all: apply (inj (String.app root)) in H; cbn in H; simplify_eq.
  all: apply (inj (String.app node)) in H; discriminate H.
Qed.

Section Refusals.

Variable SERVER_DEFAULT_PORT : scalar.

Abbreviation register := (register_traefik_route SERVER_DEFAULT_PORT).
Abbreviation values_of := (route_values SERVER_DEFAULT_PORT).

(** The store answers [i] writes, fewer than four, and refuses the next. *)
Lemma register_refused w ks m (i : nat) rest t :
  guards_pass w = true → (i < 4)%nat →
  register (at_ w ks m (replicate i false ++ true :: rest) t)
  = (Raised ConnectionError,
     at_ w (Some [])
         (foldl (λ m kx, <[kx.1 := kx.2]> m) m
                (take i (zip (route_keys (root_key_of w) (node_name (context w)))
                             (values_of w))))
         rest
         (t ++ opening "Registering" w
            ++ take (S i) (zip_with RedisSet
                             (route_keys (root_key_of w) (node_name (context w)))
                             (values_of w)))).
Proof.
  intros (Hd & Ht & Hr)%guards_pass_inv Hi.
  unfold register_traefik_route.
  step (assign_keys_run _ _ _ _ _ _).
  step (before_reloader_run _ _ _ _ _).
  rewrite Hd.
  step (get_context_run _ _ _ _ _).
  fold (traefik_of w). fold (redis_of w). rewrite Ht, Hr. cbn [negb].
  step (socket_gethostname_run _ _ _ _ _).
  unfold log_info, StrictRedis.
  step (emit_run _ _ _ _ _ _).
  step (emit_run _ _ _ _ _ _).
  destruct i as [|[|[|[|i]]]]; [..|lia]; cbn [replicate app].
  all: repeat (step (store_set_Ok _ _ _ (false :: _) _ _ _ ltac:(done));
               cbn [tail]).
  all: stop (store_set_Raised _ _ _ (true :: _) _ _ _ eq_refl); cbn [tail].
  all: unfold route_keys, route_values, opening, root_key_of, rule_of,
         entrypoint_of, reachable_url, port_of.
  all: cbn [foldl zip_with take fst snd app].
  all: rewrite <- !(assoc_L (++)); cbn [app].
  all: reflexivity.
Qed.

Lemma register_Ok_here w :
  guards_pass w = true → answers_ok 4 (faults w) = true →
  register w
  = (Ok (),
     at_ w (Some (route_keys (root_key_of w) (node_name (context w))))
         (foldl (λ m kx, <[kx.1 := kx.2]> m) (kv w)
                (zip (route_keys (root_key_of w) (node_name (context w)))
                     (values_of w)))
         (drop 4 (faults w))
         (trace w ++ opening "Registering" w
            ++ zip_with RedisSet (route_keys (root_key_of w) (node_name (context w)))
                        (values_of w))).
Proof.
  intros Hg Hf.
  pose proof (register_main SERVER_DEFAULT_PORT w (keys_of w) (kv w) (faults w)
                (trace w) Hg Hf) as E.
  now rewrite at_self in E.
Qed.

Lemma register_refused_here w (i : nat) rest :
  guards_pass w = true → faults w = replicate i false ++ true :: rest →
  (i < 4)%nat →
  register w
  = (Raised ConnectionError,
     at_ w (Some [])
         (foldl (λ m kx, <[kx.1 := kx.2]> m) (kv w)
                (take i (zip (route_keys (root_key_of w) (node_name (context w)))
                             (values_of w))))
         rest
         (trace w ++ opening "Registering" w
            ++ take (S i) (zip_with RedisSet
                             (route_keys (root_key_of w) (node_name (context w)))
                             (values_of w)))).
Proof.
  intros Hg Hf Hi.
  pose proof (register_refused w (keys_of w) (kv w) i rest (trace w) Hg Hi) as E.
  now rewrite <- Hf, at_self in E.
Qed.

(** The three ways a call of [register] can go. *)
Lemma register_cases w :
  guards_pass w = false
  ∨ guards_pass w = true ∧ answers_ok 4 (faults w) = true
  ∨ guards_pass w = true
    ∧ ∃ (i : nat) rest, faults w = replicate i false ++ true :: rest ∧ (i < 4)%nat.
Proof.
  destruct (guards_pass w); [|by left]. right.
  destruct (answers_ok 4 (faults w)) eqn:Hf; [by left|]. right.
  split; [done|]. now apply answers_ok_false.
Qed.

Lemma written_keys_sets (ks vs : list string) :
  length ks = length vs → written_keys (zip_with RedisSet ks vs) = ks.
Proof.
  unfold written_keys. revert vs.
  induction ks as [|k ks IH]; intros [|v vs] Hl; try done.
  csimpl. rewrite IH; [done | by injection Hl].
Qed.

Lemma deleted_keys_sets (ks vs : list string) :
  deleted_keys (zip_with RedisSet ks vs) = [].
Proof.
  unfold deleted_keys. revert vs.
  induction ks as [|k ks IH]; intros [|v vs]; try done. csimpl. apply IH.
Qed.

Lemma written_keys_deletes ks : written_keys (RedisDelete <$> ks) = [].
Proof.
  unfold written_keys. induction ks as [|k ks IH]; [done|]. csimpl. apply IH.
Qed.

(** Looking up a key after a run of insertions under different keys. *)
Lemma lookup_foldl_insert_notin (kvs : list (string * string)) :
  ∀ (m : gmap string string) k,
    k ∉ kvs.*1 →
    foldl (λ m kx, <[kx.1 := kx.2]> m) m kvs !! k = m !! k.
Proof.
  induction kvs as [|[k' v'] kvs IH]; intros m k Hk; [done|].
  rewrite fmap_cons, not_elem_of_cons in Hk. destruct Hk as [Hne Hk].
  cbn [foldl fst snd]. rewrite IH by done. now apply lookup_insert_ne.
Qed.

Lemma lookup_foldl_insert (kvs : list (string * string)) :
  ∀ (m : gmap string string) k v,
    NoDup kvs.*1 → (k, v) ∈ kvs →
    foldl (λ m kx, <[kx.1 := kx.2]> m) m kvs !! k = Some v.
Proof.
  induction kvs as [|[k' v'] kvs IH]; intros m k v Hnd Hin.
  - by apply elem_of_nil in Hin.
  - rewrite fmap_cons in Hnd. apply NoDup_cons in Hnd as [Hk' Hnd].
    cbn [foldl fst snd]. apply elem_of_cons in Hin as [Heq|Hin].
    + injection Heq as -> ->.
      rewrite lookup_foldl_insert_notin by done. apply lookup_insert_eq.
    + now apply IH.
Qed.

Lemma fst_zip_route w :
  (zip (route_keys (root_key_of w) (node_name (context w))) (values_of w)).*1
  = route_keys (root_key_of w) (node_name (context w)).
Proof. reflexivity. Qed.

(** X1.  With the proxy section or the store parameters missing,
    [register] returns after one log line, an error unless the
    development-mode guard stopped the call first; it sends nothing to
    the store, leaves its content alone and leaves the key list empty. *)
Theorem register_missing_config w :
  config_missing w = true →
  ∃ w' lvl msg,
    register w = (Ok (), w')
    ∧ trace w' = trace w ++ [Log lvl msg]
    ∧ (dev_mode_skip w = false → lvl = ERROR)
    ∧ store_io (trace w') = store_io (trace w)
    ∧ keys_of w' = Some []
    ∧ kv w' = kv w
    ∧ faults w' = faults w.
Proof.
  intros Hg%config_missing_guards.
  destruct (guard_message_level Registration w) as (lvl & msg & Hm & _ & Hl).
  eexists _, lvl, msg. split.
  - now apply register_skipped_here.
  - cbn [trace at_]. rewrite Hm.
    split; [reflexivity|]. split; [exact Hl|].
    split; [apply store_io_log|]. repeat split; reflexivity.
Qed.

(** X2.  Whichever of the four writes the store refuses, [register]
    raises the exception of the store with an empty key list: the writes
    answered before are in the store, the refused one was sent, the later
    ones were not. *)
Theorem register_any_write_refused w (i : nat) rest :
  guards_pass w = true →
  faults w = replicate i false ++ true :: rest → (i < 4)%nat →
  let keys := route_keys (root_key_of w) (node_name (context w)) in
  ∃ w' t,
    register w = (Raised ConnectionError, w')
    ∧ keys_of w' = Some []
    ∧ trace w' = trace w ++ t
    ∧ written_keys t = take (S i) keys
    ∧ kv w' = foldl (λ m kx, <[kx.1 := kx.2]> m) (kv w)
                    (take i (zip keys (values_of w)))
    ∧ (∀ k, k ∉ take i keys → kv w' !! k = kv w !! k)
    ∧ faults w' = rest.
Proof.
  intros Hg Hf Hi keys. do 2 eexists.
  split; [exact (register_refused_here w i rest Hg Hf Hi)|].
  cbn [keys_of context at_ traefik_redis_keys with_keys trace kv faults].
  split; [reflexivity|]. split; [reflexivity|].
  split.
  { destruct i as [|[|[|[|i]]]]; [..|lia]; reflexivity. }
  split; [reflexivity|]. split; [|reflexivity].
  intros k Hk. apply lookup_foldl_insert_notin.
  rewrite fmap_take, fst_zip_route. exact Hk.
Qed.


(** X4.  After a [register] that returned on its main path, each of the
    four keys, all different, holds the value written for it: the rule,
    the entrypoint, the node name, the reachable URL. *)
Theorem register_then_lookup w :
  guards_pass w = true → answers_ok 4 (faults w) = true →
  let root := root_key_of w in
  let node := node_name (context w) in
  ∃ w',
    register w = (Ok (), w')
    ∧ NoDup (default [] (keys_of w'))
    ∧ kv w' !! (root +:+ "/http/routers/" +:+ node +:+ "/rule") = Some (rule_of w)
    ∧ kv w' !! (root +:+ "/http/routers/" +:+ node +:+ "/entrypoints/0")
      = Some (entrypoint_of w)
    ∧ kv w' !! (root +:+ "/http/routers/" +:+ node +:+ "/service") = Some node
    ∧ kv w' !! (root +:+ "/http/services/" +:+ node
                +:+ "/loadbalancer/servers/0/url")
      = Some (reachable_url SERVER_DEFAULT_PORT w).
Proof.
  intros Hg Hf root node. eexists.
  split; [exact (register_Ok_here w Hg Hf)|].
  cbn [keys_of context at_ traefik_redis_keys with_keys kv from_option id].
  split; [apply route_keys_NoDup|].
  pose proof (route_keys_NoDup root node) as Hnd. subst root node.
  rewrite <- fst_zip_route in Hnd.
  repeat split; apply lookup_foldl_insert; try exact Hnd.
  all: unfold route_keys, route_values; cbn [zip_with].
  all: repeat (first [apply list_elem_of_here | apply list_elem_of_further]).
Qed.

(** X5.  Whatever the world and however the call ends, every key that
    [register] leaves on the key list is in the store. *)
Theorem register_lists_stored_keys w :
  ∀ k, k ∈ default [] (keys_of (register w).2) →
       is_Some (kv (register w).2 !! k).
Proof.
  intros k.
  destruct (register_cases w) as [Hg|[[Hg Hf]|(Hg & i & rest & Hf & Hi)]].
  - rewrite register_skipped_here by done. intros H. by apply elem_of_nil in H.
  - rewrite register_Ok_here by done.
    cbn [snd keys_of context at_ traefik_redis_keys with_keys kv from_option id].
    intros Hk. rewrite <- fst_zip_route in Hk.
    apply list_elem_of_fmap in Hk as ([k' v] & -> & Hin).
    exists v. apply lookup_foldl_insert; [|exact Hin].
    rewrite fst_zip_route. apply route_keys_NoDup.
  - rewrite (register_refused_here w i rest) by done.
    intros H. by apply elem_of_nil in H.
Qed.

Lemma written_keys_after_opening what w t :
  written_keys (opening what w ++ t) = written_keys t.
Proof. reflexivity. Qed.

Lemma foldr_delete_subseteq (m : gmap string string) ks : foldr delete m ks ⊆ m.
Proof.
  induction ks as [|k ks IH]; [done|]. cbn [foldr].
  etrans; [apply delete_subseteq | exact IH].
Qed.

Lemma lookup_foldr_delete_notin (m : gmap string string) ks k :
  k ∉ ks → foldr delete m ks !! k = m !! k.
Proof.
  induction ks as [|k' ks IH]; intros Hk; [done|].
  apply not_elem_of_cons in Hk as [Hne Hk].
  cbn [foldr]. rewrite lookup_delete_ne by done. now apply IH.
Qed.

(** The four ways a call of [unregister] can go. *)
Lemma unregister_cases w :
  guards_pass w = false
  ∨ guards_pass w = true ∧ keys_of w = None
  ∨ (∃ ks, guards_pass w = true ∧ keys_of w = Some ks
           ∧ answers_ok (length ks) (faults w) = true)
  ∨ (∃ ks (i : nat) rest,
       guards_pass w = true ∧ keys_of w = Some ks
       ∧ faults w = replicate i false ++ true :: rest ∧ (i < length ks)%nat).
Proof.
  destruct (guards_pass w); [|by left]. right.
  destruct (keys_of w) as [ks|]; [|by left]. right.
  destruct (answers_ok (length ks) (faults w)) eqn:Hf.
  - left. by exists ks.
  - right. apply answers_ok_false in Hf as (i & rest & Hf & Hi).
    by exists ks, i, rest.
Qed.

(** X6.  Whatever the world, [unregister] returns, or raises the
    exception of the store, or raises because the key list was never
    assigned; it sends no write; the store afterwards holds nothing it
    did not hold before, and the key list is a front part of what it
    was. *)
Theorem unregister_outcome w :
  ∃ r w' t (n : nat),
    unregister_traefik_route w = (r, w')
    ∧ (r = Ok () ∨ r = Raised ConnectionError ∨ r = Raised AttributeError)
    ∧ trace w' = trace w ++ t
    ∧ written_keys t = []
    ∧ kv w' ⊆ kv w
    ∧ keys_of w' = take n <$> keys_of w.
Proof.
  destruct (unregister_cases w)
    as [Hg|[[Hg Hk]|[(ks & Hg & Hk & Hf)|(ks & i & rest & Hg & Hk & Hf & Hi)]]].
  - destruct (guard_message_level Unregistration w) as (lvl & msg & Hm & _).
    eexists _, _, _, (length (default [] (keys_of w))).
    split; [exact (unregister_skipped_here w Hg)|].
    split; [by left|]. split; [reflexivity|]. rewrite Hm.
    split; [reflexivity|]. split; [reflexivity|].
    cbn [keys_of context at_ traefik_redis_keys with_keys].
    fold (keys_of w). destruct (keys_of w) as [ks|]; [|done].
    cbn. now rewrite firstn_all.
  - eexists _, _, _, 0. split; [exact (unregister_no_attribute_here w Hg Hk)|].
    split; [by right; right|]. split; [reflexivity|].
    split; [reflexivity|]. split; [reflexivity|]. now rewrite Hk.
  - eexists _, _, _, 0. split; [exact (unregister_Ok_here w ks Hg Hk Hf)|].
    split; [by left|]. split; [reflexivity|].
    split; [rewrite written_keys_after_opening; apply written_keys_deletes|].
    split; [apply foldr_delete_subseteq|]. now rewrite Hk.
  - eexists _, _, _, (length ks - S i).
    split; [exact (unregister_Raised_here w ks i rest Hg Hk Hf Hi)|].
    split; [by right; left|]. split; [reflexivity|].
    split; [rewrite written_keys_after_opening; apply written_keys_deletes|].
    split; [apply foldr_delete_subseteq|]. now rewrite Hk.
Qed.

Lemma foldl_insert_twice (kvs : list (string * string)) (m : gmap string string) :
  NoDup kvs.*1 →
  foldl (λ m kx, <[kx.1 := kx.2]> m) (foldl (λ m kx, <[kx.1 := kx.2]> m) m kvs) kvs
  = foldl (λ m kx, <[kx.1 := kx.2]> m) m kvs.
Proof.
  intros Hnd. apply map_eq. intros k.
  destruct (decide (k ∈ kvs.*1)) as [Hin|Hout].
  - apply list_elem_of_fmap in Hin as ([k' v] & -> & Hin).
    now rewrite !(lookup_foldl_insert kvs _ k' v).
  - now rewrite !lookup_foldl_insert_notin.
Qed.

(** X7.  A second [register] right after a first one, on the main path
    with the store answering, changes nothing in the store and leaves
    the same four keys on the list, each once. *)
Theorem register_twice w :
  guards_pass w = true → answers_ok 8 (faults w) = true →
  ∃ w1 w2 t1 t2,
    register w = (Ok (), w1)
    ∧ register w1 = (Ok (), w2)
    ∧ trace w1 = trace w ++ t1
    ∧ trace w2 = trace w1 ++ t2
    ∧ t2 = t1
    ∧ kv w2 = kv w1
    ∧ keys_of w2 = keys_of w1
    ∧ keys_of w2 = Some (route_keys (root_key_of w) (node_name (context w))).
Proof.
  intros Hg Hf. change 8 with (4 + 4) in Hf.
  rewrite answers_ok_add in Hf. apply andb_prop in Hf as [Hf1 Hf2].
  do 4 eexists. split; [exact (register_Ok_here w Hg Hf1)|].
  split; [exact (register_main SERVER_DEFAULT_PORT w _ _ _ _ Hg Hf2)|].
  split; [reflexivity|]. split; [reflexivity|]. split; [reflexivity|].
  split; [|split; reflexivity].
  cbn [kv at_]. apply foldl_insert_twice.
  rewrite fst_zip_route. apply route_keys_NoDup.
Qed.

(** X8.  On its main path, with a key list that was never assigned,
    which is the state before the first [register], [unregister] logs,
    connects and raises; nothing is sent to the store. *)
Theorem unregister_before_register w :
  guards_pass w = true → keys_of w = None →
  ∃ w',
    unregister_traefik_route w = (Raised AttributeError, w')
    ∧ trace w' = trace w ++ opening "Unregistering" w
    ∧ kv w' = kv w
    ∧ faults w' = faults w
    ∧ keys_of w' = None.
Proof.
  intros Hg Hk. eexists.
  split; [exact (unregister_no_attribute_here w Hg Hk)|].
  repeat split; reflexivity.
Qed.

(** X9.  A second [unregister] after one that returned on the main path
    finds the list empty: it logs, connects and returns, with no
    deletion and no change in the store. *)
Theorem unregister_twice w (ks : list string) :
  guards_pass w = true → keys_of w = Some ks →
  answers_ok (length ks) (faults w) = true →
  ∃ w1 w2,
    unregister_traefik_route w = (Ok (), w1)
    ∧ unregister_traefik_route w1 = (Ok (), w2)
    ∧ trace w2 = trace w1 ++ opening "Unregistering" w
    ∧ kv w2 = kv w1
    ∧ faults w2 = faults w1
    ∧ keys_of w2 = Some [].
Proof.
  intros Hg Hk Hf. do 2 eexists.
  split; [exact (unregister_Ok_here w ks Hg Hk Hf)|].
  split; [apply (unregister_Ok w []); [exact Hg | apply answers_ok_0]|].
  cbn [trace kv faults keys_of context at_ traefik_redis_keys with_keys].
  cbn [length foldr]. rewrite drop_0.
  change (RedisDelete <$> reverse []) with (@nil Event).
  rewrite (right_id_L [] (++)). repeat split; reflexivity.
Qed.

(** X10.  [unregister] takes the keys to delete from the list and from
    nothing else: when the settings or the node name have changed since
    [register] ran, the keys that [register] wrote are the ones deleted,
    and none of them is left in the store. *)
Theorem unregister_uses_recorded_keys w v :
  guards_pass w = true → answers_ok 4 (faults w) = true →
  guards_pass v = true → answers_ok 4 (faults v) = true →
  keys_of v = keys_of (register w).2 →
  kv v = kv (register w).2 →
  let keys := route_keys (root_key_of w) (node_name (context w)) in
  ∃ v' t,
    unregister_traefik_route v = (Ok (), v')
    ∧ trace v' = trace v ++ t
    ∧ deleted_keys t = reverse keys
    ∧ (∀ k, k ∈ keys → kv v' !! k = None)
    ∧ (∀ k, k ∉ keys → kv v' !! k = kv w !! k).
Proof.
  intros Hg Hf Hgv Hfv Hk Hkv keys.
  rewrite register_Ok_here in Hk, Hkv by done.
  cbn [snd keys_of context at_ traefik_redis_keys with_keys kv] in Hk, Hkv.
  fold (keys_of v) in Hk. fold keys in Hk, Hkv.
  do 2 eexists. split; [exact (unregister_Ok_here v keys Hgv Hk Hfv)|].
  split; [reflexivity|].
  split; [rewrite deleted_keys_opening; apply deleted_keys_deletes|].
  cbn [kv at_]. split.
  - intros k Hin. now apply lookup_foldr_delete.
  - intros k Hout. rewrite lookup_foldr_delete_notin, Hkv by done.
    apply lookup_foldl_insert_notin. subst keys. now rewrite fst_zip_route.
Qed.

(** X11.  On its main path with the store answering, [unregister]
    deletes the keys of the list and touches no other key of the store;
    it uses one answer of the store for each key. *)
Theorem unregister_frame w (ks : list string) :
  guards_pass w = true → keys_of w = Some ks →
  answers_ok (length ks) (faults w) = true →
  ∃ w',
    unregister_traefik_route w = (Ok (), w')
    ∧ (∀ k, k ∈ ks → kv w' !! k = None)
    ∧ (∀ k, k ∉ ks → kv w' !! k = kv w !! k)
    ∧ faults w' = drop (length ks) (faults w).
Proof.
  intros Hg Hk Hf. eexists.
  split; [exact (unregister_Ok_here w ks Hg Hk Hf)|].
  cbn [kv faults at_]. split; [|split; [|reflexivity]].
  - intros k Hin. now apply lookup_foldr_delete.
  - intros k Hout. now apply lookup_foldr_delete_notin.
Qed.

Lemma connections_deletes ks : connections (RedisDelete <$> ks) = [].
Proof.
  unfold connections. induction ks as [|k ks IH]; [done|]. csimpl. apply IH.
Qed.

Lemma connections_after_opening what w t :
  connections (opening what w ++ t)
  = (default "localhost" (redis_of w !! "host"), redis_of w !! "password")
    :: connections t.
Proof. reflexivity. Qed.

(** X12.  On their main paths [register] and [unregister] each open one
    connection, both to the same place: the host of the [redis] section,
    or [localhost] when it names none, with its password, or none. *)
Theorem same_connection w :
  guards_pass w = true →
  ∃ host,
    connections (drop (length (trace w)) (trace (register w).2))
    = [(host, redis_of w !! "password")]
    ∧ connections (drop (length (trace w))
                        (trace (unregister_traefik_route w).2))
      = [(host, redis_of w !! "password")]
    ∧ (∀ h, redis_of w !! "host" = Some h → host = h)
    ∧ (redis_of w !! "host" = None → host = "localhost").
Proof.
  intros Hg. exists (default "localhost" (redis_of w !! "host")).
  split; [|split; [|split]].
  - destruct (register_cases w) as [Hg'|[[_ Hf]|(_ & i & rest & Hf & Hi)]];
      [congruence|..].
    + rewrite register_Ok_here by done. cbn [snd trace at_].
      rewrite drop_app_length, connections_after_opening. reflexivity.
    + rewrite (register_refused_here w i rest) by done. cbn [snd trace at_].
      rewrite drop_app_length, connections_after_opening.
      destruct i as [|[|[|[|i]]]]; [..|lia]; reflexivity.
  - destruct (unregister_cases w)
      as [Hg'|[[_ Hk]|[(ks & _ & Hk & Hf)|(ks & i & rest & _ & Hk & Hf & Hi)]]];
      [congruence|..].
    + rewrite unregister_no_attribute_here by done. cbn [snd trace at_].
      now rewrite drop_app_length.
    + rewrite (unregister_Ok_here w ks) by done. cbn [snd trace at_].
      rewrite drop_app_length, connections_after_opening.
      now rewrite connections_deletes.
    + rewrite (unregister_Raised_here w ks i rest) by done. cbn [snd trace at_].
      rewrite drop_app_length, connections_after_opening.
      now rewrite connections_deletes.
  - now intros h ->.
  - now intros ->.
Qed.

End Refusals.

(** ** Routes of different nodes *)

Lemma list_ascii_app s1 s2 :
  String.list_ascii_of_string (s1 +:+ s2)
  = String.list_ascii_of_string s1 ++ String.list_ascii_of_string s2.
Proof. induction s1 as [|a s1 IH]; [done|]. simpl. now f_equal. Qed.

Lemma list_ascii_inj s1 s2 :
  String.list_ascii_of_string s1 = String.list_ascii_of_string s2 → s1 = s2.
Proof.
  intros H. rewrite <- (String.string_of_list_ascii_of_string s1),
    <- (String.string_of_list_ascii_of_string s2). now rewrite H.
Qed.

(** What two strings ending in the given tails look like from the end. *)
Lemma reversed_tails s1 t1 s2 t2 :
  s1 +:+ t1 = s2 +:+ t2 →
  reverse (String.list_ascii_of_string t1) ++ reverse (String.list_ascii_of_string s1)
  = reverse (String.list_ascii_of_string t2) ++ reverse (String.list_ascii_of_string s2).
Proof.
  intros H%(f_equal String.list_ascii_of_string).
  rewrite !list_ascii_app in H.
  apply (f_equal reverse) in H. now rewrite !reverse_app in H.
Qed.

Lemma string_app_inv_tail s1 s2 t : s1 +:+ t = s2 +:+ t → s1 = s2.
Proof.
  intros H%(f_equal String.list_ascii_of_string).
  rewrite !list_ascii_app in H.
  apply (inj (λ l, l ++ _)) in H. now apply list_ascii_inj.
Qed.

Lemma route_keys_disjoint root node1 node2 :
  node1 ≠ node2 →
  ∀ k, k ∈ route_keys root node1 → k ∉ route_keys root node2.
Proof.
  intros Hne k H1 H2. unfold route_keys in H1, H2.
  rewrite ?elem_of_cons, elem_of_nil in H1, H2.
  repeat (destruct H1 as [H1|H1]); try done; subst k.
  all: repeat (destruct H2 as [H2|H2]); try done.
  all: apply (inj (String.app root)) in H2; cbn in H2; simplify_eq.
  all: try (by apply string_app_inv_tail in H2).
  all: apply reversed_tails in H2; vm_compute reverse in H2; cbn in H2.
  all: cbn [app] in H2; simplify_eq.
Qed.

(** X13.  Two instances that register under the same root key with
    different node names record no key in common: neither overwrites, nor
    later deletes, a record of the other. *)
Theorem routes_of_two_nodes (SERVER_DEFAULT_PORT : scalar) w1 w2 :
  guards_pass w1 = true → answers_ok 4 (faults w1) = true →
  guards_pass w2 = true → answers_ok 4 (faults w2) = true →
  root_key_of w1 = root_key_of w2 →
  node_name (context w1) ≠ node_name (context w2) →
  ∀ k, k ∈ default [] (keys_of (register_traefik_route SERVER_DEFAULT_PORT w1).2) →
       k ∉ default [] (keys_of (register_traefik_route SERVER_DEFAULT_PORT w2).2).
Proof.
  intros Hg1 Hf1 Hg2 Hf2 Hroot Hnode k.
  rewrite !register_Ok_here by done.
  cbn [snd keys_of context at_ traefik_redis_keys with_keys from_option id].
  rewrite Hroot. now apply route_keys_disjoint.
Qed.

(** * The entry point *)

Lemma ends_at {A} (m : M A) r w ks kv fs t :
  ends m r →
  ∃ t', m (at_ w ks kv fs t) = (r, at_ w ks kv fs (t ++ t')) ∧ store_io t' = [].
Proof.
  intros H. destruct (H (at_ w ks kv fs t)) as (t' & E & S).
  exists t'. split; [exact E | exact S].
Qed.

Lemma assign_context_run c w ks kv fs t :
  assign_context c (at_ w ks kv fs t)
  = (Ok (), at_ (with_context c w) (traefik_redis_keys c) kv fs t).
Proof. destruct c; reflexivity. Qed.

Lemma os_environ_run w ks kv fs t :
  os_environ (at_ w ks kv fs t) = (Ok (environ w), at_ w ks kv fs t).
Proof. reflexivity. Qed.

Lemma try_finally_Ok {A} (body : M A) final w r w1 w2 :
  body w = (r, w1) → final w1 = (Ok (), w2) →
  try_finally body final w = (r, w2).
Proof. intros E1 E2. unfold try_finally. now rewrite E1, E2. Qed.

Lemma try_finally_Raised {A} (body : M A) final w r w1 e w2 :
  body w = (r, w1) → final w1 = (Raised e, w2) →
  try_finally body final w = (Raised e, w2).
Proof. intros E1 E2. unfold try_finally. now rewrite E1, E2. Qed.

Lemma store_io_app t1 t2 : store_io (t1 ++ t2) = store_io t1 ++ store_io t2.
Proof. apply filter_app. Qed.

Lemma written_keys_app t1 t2 :
  written_keys (t1 ++ t2) = written_keys t1 ++ written_keys t2.
Proof. apply omap_app. Qed.

Lemma deleted_keys_app t1 t2 :
  deleted_keys (t1 ++ t2) = deleted_keys t1 ++ deleted_keys t2.
Proof. apply omap_app. Qed.

(** A piece of trace without store traffic names no key. *)
Lemma store_io_nil t :
  store_io t = [] → written_keys t = [] ∧ deleted_keys t = [].
Proof.
  induction t as [|e t IH]; [done|]. unfold store_io.
  destruct e; [|rewrite filter_cons_True by done; discriminate..].
  rewrite filter_cons_False by (cbn; discriminate). exact IH.
Qed.

(** A collaborator has run. *)
Ltac meet H :=
  lazymatch goal with
  | |- context [bind ?m _ (at_ ?w ?ks ?kv ?fs ?t)] =>
    let t' := fresh "t" in
    let E := fresh "E" in
    let S := fresh "S" in
    destruct (ends_at m _ w ks kv fs t H) as (t' & E & S);
    rewrite (bind_Ok _ _ _ _ _ E); cbv beta iota zeta; clear E
  end.

(** Name the outcome of the computation in the goal, to run it before
    saying what it is. *)
Ltac running :=
  lazymatch goal with
  | |- ∃ x, _ =>
    lazymatch goal with
    | |- context [?m (at_ ?w ?ks ?kv ?fs ?t)] =>
      let X := fresh "X" in
      let EX := fresh "EX" in
      remember (m (at_ w ks kv fs t)) as X eqn:EX;
      symmetry in EX; revert EX
    end
  end.

Section MainProperties.

Variable SERVER_DEFAULT_PORT : scalar.
Variables (setup_process : M unit) (load_settings : M (option Settings)).
Variables prepare make_app make_api finish_setup : M unit.
Variables run_server deinit_modules : M unit.

Abbreviation main_ :=
  (main SERVER_DEFAULT_PORT setup_process load_settings prepare make_app
        make_api finish_setup run_server deinit_modules).
Abbreviation serve_ := (serve SERVER_DEFAULT_PORT run_server deinit_modules).
Abbreviation finale_ := (finale deinit_modules).

Lemma main_boot_at w ks m fs t0 st :
  ends setup_process (Ok ()) → ends load_settings (Ok (Some st)) →
  ends prepare (Ok ()) → ends make_app (Ok ()) → ends make_api (Ok ()) →
  ends finish_setup (Ok ()) →
  ∃ t, store_io t = []
       ∧ main_ (at_ w ks m fs t0) = serve_ (at_ (booted st w) None m fs (t0 ++ t)).
Proof.
  intros Hs Hl Hp Ha Hi Hf. running. unfold main.
  meet Hs. unfold log_info.
  step (emit_run _ _ _ _ _ _). step (emit_run _ _ _ _ _ _).
  meet Hl.
  step (os_environ_run _ _ _ _ _). step (socket_gethostname_run _ _ _ _ _).
  step (assign_context_run _ _ _ _ _ _). fold (booted st w).
  meet Hp. step (emit_run _ _ _ _ _ _).
  meet Ha. step (emit_run _ _ _ _ _ _).
  meet Hi. step (emit_run _ _ _ _ _ _).
  meet Hf. change (bind (register_traefik_route SERVER_DEFAULT_PORT) _) with serve_. rewrite <- !(assoc_L (++)).
  intros <-. eexists. split; [|reflexivity].
  rewrite !store_io_app, S, S0, S1, S2, S3, S4. reflexivity.
Qed.

Lemma main_boot w st :
  ends setup_process (Ok ()) → ends load_settings (Ok (Some st)) →
  ends prepare (Ok ()) → ends make_app (Ok ()) → ends make_api (Ok ()) →
  ends finish_setup (Ok ()) →
  ∃ t, store_io t = []
       ∧ main_ w = serve_ (at_ (booted st w) None (kv w) (faults w) (trace w ++ t)).
Proof.
  intros Hs Hl Hp Ha Hi Hf.
  destruct (main_boot_at w (keys_of w) (kv w) (faults w) (trace w) st
              Hs Hl Hp Ha Hi Hf) as (t & St & E).
  rewrite at_self in E. now exists t.
Qed.

Lemma store_io_deletes ks : store_io (RedisDelete <$> ks) = RedisDelete <$> ks.
Proof.
  unfold store_io. induction ks as [|k ks IH]; [done|].
  rewrite fmap_cons, filter_cons_True by done. now rewrite IH.
Qed.

Lemma store_io_sets (ks vs : list string) :
  store_io (zip_with RedisSet ks vs) = zip_with RedisSet ks vs.
Proof.
  unfold store_io. revert vs.
  induction ks as [|k ks IH]; intros [|v vs]; try done.
  cbn [zip_with]. rewrite filter_cons_True by done. now rewrite IH.
Qed.

Lemma store_io_take_sets (n : nat) (ks vs : list string) :
  store_io (take n (zip_with RedisSet ks vs)) = take n (zip_with RedisSet ks vs).
Proof.
  rewrite zip_with_take. apply store_io_sets.
Qed.

Lemma store_io_opening what w t :
  store_io (opening what w ++ t)
  = Connect (default "localhost" (redis_of w !! "host")) (redis_of w !! "password")
    :: store_io t.
Proof. reflexivity. Qed.

Lemma written_keys_store_io t : written_keys (store_io t) = written_keys t.
Proof.
  unfold store_io, written_keys. induction t as [|e t IH]; [done|].
  destruct e; [rewrite filter_cons_False by (cbn; discriminate)
              |rewrite filter_cons_True by done..]; csimpl; now rewrite IH.
Qed.

Lemma deleted_keys_store_io t : deleted_keys (store_io t) = deleted_keys t.
Proof.
  unfold store_io, deleted_keys. induction t as [|e t IH]; [done|].
  destruct e; [rewrite filter_cons_False by (cbn; discriminate)
              |rewrite filter_cons_True by done..]; csimpl; now rewrite IH.
Qed.

Lemma store_io_cons_log lvl msg t : store_io (Log lvl msg :: t) = store_io t.
Proof. unfold store_io. now rewrite filter_cons_False by (cbn; discriminate). Qed.

(** *** The [finally] part *)

Lemma finale_skipped b ks m fs t :
  guards_pass b = false → ends deinit_modules (Ok ()) →
  ∃ t', finale_ (at_ b ks m fs t) = (Ok (), at_ b ks m fs (t ++ t'))
        ∧ store_io t' = [].
Proof.
  intros Hg Hd. running. unfold finale, log_info.
  step (emit_run _ _ _ _ _ _).
  step (unregister_skipped _ _ _ _ _ Hg).
  destruct (ends_at deinit_modules _ b ks m fs
              ((t ++ [Log INFO "WSGI server stopped"])
               ++ [guard_message Unregistration b]) Hd) as (t' & E & S).
  rewrite E. intros <-. rewrite <- !(assoc_L (++)).
  eexists. split; [reflexivity|].
  destruct (guard_message_level Unregistration b) as (lvl & msg & -> & _).
  cbn [app]. now rewrite !store_io_cons_log.
Qed.

Lemma finale_Ok b (ks : list string) m fs t :
  guards_pass b = true → answers_ok (length ks) fs = true →
  ends deinit_modules (Ok ()) →
  ∃ t', finale_ (at_ b (Some ks) m fs t)
        = (Ok (), at_ b (Some []) (foldr delete m ks) (drop (length ks) fs)
                      (t ++ t'))
        ∧ store_io t'
          = Connect (default "localhost" (redis_of b !! "host"))
                    (redis_of b !! "password")
            :: (RedisDelete <$> reverse ks).
Proof.
  intros Hg Hf Hd. running. unfold finale, log_info.
  step (emit_run _ _ _ _ _ _).
  step (unregister_Ok _ _ _ _ _ Hg Hf).
  destruct (ends_at deinit_modules _ b (Some []) (foldr delete m ks)
              (drop (length ks) fs)
              ((t ++ [Log INFO "WSGI server stopped"])
               ++ opening "Unregistering" b ++ (RedisDelete <$> reverse ks)) Hd)
    as (t' & E & S).
  rewrite E. intros <-. rewrite <- !(assoc_L (++)).
  eexists. split; [reflexivity|].
  cbn [app]. rewrite store_io_cons_log, store_io_opening.
  rewrite store_io_app, store_io_deletes, S.
  now rewrite (right_id_L [] (++)).
Qed.

Lemma finale_Raised b (ks : list string) (i : nat) rest m t :
  guards_pass b = true → (i < length ks)%nat →
  ∃ t', finale_ (at_ b (Some ks) m (replicate i false ++ true :: rest) t)
        = (Raised ConnectionError,
           at_ b (Some (take (length ks - S i) ks))
               (foldr delete m (drop (length ks - i) ks)) rest (t ++ t'))
        ∧ store_io t'
          = Connect (default "localhost" (redis_of b !! "host"))
                    (redis_of b !! "password")
            :: (RedisDelete <$> take (S i) (reverse ks)).
Proof.
  intros Hg Hi. running. unfold finale, log_info.
  step (emit_run _ _ _ _ _ _).
  stop (unregister_Raised _ _ _ _ _ _ Hg Hi).
  intros <-. rewrite <- !(assoc_L (++)).
  eexists. split; [reflexivity|].
  cbn [app]. now rewrite store_io_cons_log, store_io_opening, store_io_deletes.
Qed.

Lemma bind_run {A B} (m : M A) (f : A → M B) w r w' :
  m w = (r, w') →
  bind m f w = match r with Ok a => f a w' | Raised e => (Raised e, w') end.
Proof. intros E. unfold bind. now rewrite E. Qed.

(** The server has run, on the world of the goal. *)
Ltac serve_with Hr :=
  lazymatch goal with
  | |- context [bind (try_finally ?body _) _ (at_ ?w ?ks ?kv ?fs ?t)] =>
    let t' := fresh "t" in
    destruct (ends_at body _ w ks kv fs t Hr) as (t' & ? & ?)
  end.

(** The end of [serve], once the [try] statement has ended with [r]. *)
Lemma serve_end r b ks m fs t :
  match r with
  | Ok a => (log_info "Exiting";; ret None) (at_ b ks m fs t)
  | Raised e => (Raised e, at_ b ks m fs t)
  end
  = (ending r, at_ b ks m fs (t ++ match r with
                                   | Ok _ => [Log INFO "Exiting"]
                                   | Raised _ => []
                                   end)).
Proof.
  destruct r as [[]|e]; cbn [ending].
  - unfold log_info. now step (emit_run _ _ _ _ _ _).
  - now rewrite (right_id_L [] (++)).
Qed.

Lemma store_io_serve_end (r : Result unit) :
  store_io (match r with Ok _ => [Log INFO "Exiting"] | Raised _ => [] end) = [].
Proof. now destruct r. Qed.

(** *** [serve] *)

Lemma serve_skipped r b ks m fs t :
  guards_pass b = false → ends run_server r → ends deinit_modules (Ok ()) →
  ∃ t', serve_ (at_ b ks m fs t) = (ending r, at_ b (Some []) m fs (t ++ t'))
        ∧ store_io t' = [].
Proof.
  intros Hg Hr Hd. running. unfold serve.
  step (register_skipped SERVER_DEFAULT_PORT _ _ _ _ _ Hg).
  serve_with Hr.
  lazymatch goal with
  | E : run_server _ = (_, at_ ?w ?ks' ?kv ?fs' ?t') |- _ =>
    destruct (finale_skipped w ks' kv fs' t' Hg Hd) as (t2 & E2 & S2);
    rewrite (bind_run _ _ _ _ _ (try_finally_Ok _ _ _ _ _ _ E E2))
  end.
  rewrite serve_end. intros <-. rewrite <- !(assoc_L (++)).
  eexists. split; [reflexivity|].
  destruct (guard_message_level Registration b) as (lvl & msg & -> & _).
  cbn [app]. rewrite store_io_cons_log, !store_io_app, store_io_serve_end.
  now rewrite H0, S2.
Qed.

Lemma serve_Ok r b ks m fs t :
  guards_pass b = true → answers_ok 8 fs = true →
  ends run_server r → ends deinit_modules (Ok ()) →
  let keys := route_keys (root_key_of b) (node_name (context b)) in
  let values := route_values SERVER_DEFAULT_PORT b in
  let connect := Connect (default "localhost" (redis_of b !! "host"))
                         (redis_of b !! "password") in
  ∃ t', serve_ (at_ b ks m fs t)
        = (ending r,
           at_ b (Some [])
               (foldr delete (foldl (λ m kx, <[kx.1 := kx.2]> m) m
                                    (zip keys values)) keys)
               (drop 8 fs) (t ++ t'))
        ∧ store_io t'
          = connect :: zip_with RedisSet keys values
            ++ connect :: (RedisDelete <$> reverse keys).
Proof.
  intros Hg Hf Hr Hd keys values connect.
  change 8 with (4 + 4) in Hf.
  rewrite answers_ok_add in Hf. apply andb_prop in Hf as [Hf1 Hf2].
  running. unfold serve.
  step (register_main SERVER_DEFAULT_PORT _ _ _ _ _ Hg Hf1).
  serve_with Hr.
  lazymatch goal with
  | E : run_server _ = (_, at_ ?w ?ks' ?kv ?fs' ?t') |- _ =>
    destruct (finale_Ok w (route_keys (root_key_of b) (node_name (context b)))
                kv fs' t' Hg Hf2 Hd) as (t2 & E2 & S2);
    rewrite (bind_run _ _ _ _ _ (try_finally_Ok _ _ _ _ _ _ E E2))
  end.
  rewrite serve_end. intros <-. rewrite <- !(assoc_L (++)).
  rewrite drop_drop. eexists. split; [reflexivity|].
  rewrite store_io_opening, !store_io_app, store_io_sets, store_io_serve_end.
  rewrite H0, S2. cbn [app]. now rewrite (right_id_L [] (++)).
Qed.

(** The store refuses one of the four writes: the [try] statement is
    never reached. *)
Lemma serve_register_refused b ks m (i : nat) rest t :
  guards_pass b = true → (i < 4)%nat →
  let keys := route_keys (root_key_of b) (node_name (context b)) in
  let values := route_values SERVER_DEFAULT_PORT b in
  serve_ (at_ b ks m (replicate i false ++ true :: rest) t)
  = (Raised ConnectionError,
     at_ b (Some [])
         (foldl (λ m kx, <[kx.1 := kx.2]> m) m (take i (zip keys values)))
         rest
         (t ++ opening "Registering" b
            ++ take (S i) (zip_with RedisSet keys values))).
Proof.
  intros Hg Hi keys values. unfold serve.
  now stop (register_refused SERVER_DEFAULT_PORT _ _ _ _ _ _ Hg Hi).
Qed.

(** The store answers the four writes and refuses one of the four
    deletions: the rest of the [finally] part is not run, and its
    exception is the one that leaves [serve]. *)
Lemma serve_unregister_refused r b ks m (i : nat) rest t :
  guards_pass b = true → (i < 4)%nat → ends run_server r →
  let keys := route_keys (root_key_of b) (node_name (context b)) in
  let values := route_values SERVER_DEFAULT_PORT b in
  let connect := Connect (default "localhost" (redis_of b !! "host"))
                         (redis_of b !! "password") in
  ∃ t', serve_ (at_ b ks m (replicate 4 false ++ replicate i false ++ true :: rest) t)
        = (Raised ConnectionError,
           at_ b (Some (take (4 - S i) keys))
               (foldr delete (foldl (λ m kx, <[kx.1 := kx.2]> m) m
                                    (zip keys values))
                      (drop (4 - i) keys))
               rest (t ++ t'))
        ∧ store_io t'
          = connect :: zip_with RedisSet keys values
            ++ connect :: (RedisDelete <$> take (S i) (reverse keys)).
Proof.
  intros Hg Hi Hr keys values connect.
  running. unfold serve.
  step (register_main SERVER_DEFAULT_PORT b ks m
          (replicate 4 false ++ replicate i false ++ true :: rest) t Hg eq_refl).
  cbn [replicate app drop].
  serve_with Hr.
  lazymatch goal with
  | E : run_server _ = (_, at_ ?w ?ks' ?kv ?fs' ?t') |- _ =>
    destruct (finale_Raised w (route_keys (root_key_of b) (node_name (context b)))
                i rest kv t' Hg Hi) as (t2 & E2 & S2);
    rewrite (bind_Raised _ _ _ _ _ (try_finally_Raised _ _ _ _ _ _ _ E E2))
  end.
  intros <-. rewrite <- !(assoc_L (++)).
  eexists. split; [reflexivity|].
  rewrite store_io_opening, !store_io_app, store_io_sets.
  rewrite H0, S2. reflexivity.
Qed.

Lemma deleted_keys_connect h p t : deleted_keys (Connect h p :: t) = deleted_keys t.
Proof. reflexivity. Qed.

(** *** [main] *)

(** X14.  When no settings could be loaded, [main] logs an error and
    leaves the process with status 1: the application is not set up, the
    server is not run, and nothing is sent to the store. *)
Theorem main_without_settings w :
  ends setup_process (Ok ()) → ends load_settings (Ok None) →
  ∃ w' t,
    main_ w = (Ok (Some 1%Z), w')
    ∧ trace w' = trace w ++ t
    ∧ last t = Some (Log ERROR "Settings are empty or invalid. Exiting")
    ∧ store_io t = []
    ∧ kv w' = kv w
    ∧ faults w' = faults w.
Proof.
  intros Hs Hl.
  assert (∃ t, main_ (at_ w (keys_of w) (kv w) (faults w) (trace w))
               = (Ok (Some 1%Z),
                  at_ w (keys_of w) (kv w) (faults w) (trace w ++ t))
               ∧ last t = Some (Log ERROR "Settings are empty or invalid. Exiting")
               ∧ store_io t = []) as (t & E & Hlast & St).
  { running. unfold main. meet Hs. unfold log_info, log_error.
    step (emit_run _ _ _ _ _ _). step (emit_run _ _ _ _ _ _).
    meet Hl. step (emit_run _ _ _ _ _ _).
    unfold ret. intros <-. rewrite <- !(assoc_L (++)).
    eexists. split; [reflexivity|]. split.
    - rewrite !(assoc_L (++)). apply last_snoc.
    - rewrite !store_io_app, S, S0. reflexivity. }
  rewrite at_self in E. eexists. exists t. split; [exact E|].
  repeat split; done.
Qed.

(** X15.  With the guards letting the calls through and the store
    answering, [main] writes the route before the server runs and deletes
    it after the server has ended, also when the server ended with an
    exception, which then leaves [main] once the clean-up is done.  All
    that reaches the store is one connection and the four writes, then
    one connection and the four deletions in reverse order; afterwards
    none of the four keys is in the store and the other keys are as they
    were.  The node is named after the machine when the settings give no
    name. *)
Theorem main_retracts_route w st r :
  ends setup_process (Ok ()) → ends load_settings (Ok (Some st)) →
  ends prepare (Ok ()) → ends make_app (Ok ()) → ends make_api (Ok ()) →
  ends finish_setup (Ok ()) →
  ends run_server r → ends deinit_modules (Ok ()) →
  guards_pass (booted st w) = true → answers_ok 8 (faults w) = true →
  let b := booted st w in
  let keys := route_keys (root_key_of b) (node_name (context b)) in
  let connect := Connect (default "localhost" (redis_of b !! "host"))
                         (redis_of b !! "password") in
  ∃ w' t,
    main_ w = (ending r, w')
    ∧ trace w' = trace w ++ t
    ∧ store_io t
      = connect :: zip_with RedisSet keys (route_values SERVER_DEFAULT_PORT b)
        ++ connect :: (RedisDelete <$> reverse keys)
    ∧ (∀ k, k ∈ keys → kv w' !! k = None)
    ∧ (∀ k, k ∉ keys → kv w' !! k = kv w !! k)
    ∧ keys_of w' = Some []
    ∧ (default ∅ (st_server st) !! "name" = None →
       node_name (context b) = hostname w).
Proof.
  intros Hs Hl Hp Ha Hi Hf Hr Hd Hg Hfs b keys connect.
  destruct (main_boot w st Hs Hl Hp Ha Hi Hf) as (t0 & S0 & E0). fold b in E0.
  destruct (serve_Ok r b None (kv w) (faults w) (trace w ++ t0) Hg Hfs Hr Hd)
    as (t1 & E1 & S1).
  rewrite E1 in E0. rewrite <- (assoc_L (++)) in E0.
  do 2 eexists. split; [exact E0|].
  split; [reflexivity|].
  split; [now rewrite store_io_app, S0, S1|].
  cbn [kv keys_of context at_ traefik_redis_keys with_keys].
  split; [|split; [|split; [reflexivity|]]].
  - intros k Hk. now apply lookup_foldr_delete.
  - intros k Hk. rewrite lookup_foldr_delete_notin by done.
    apply lookup_foldl_insert_notin. now rewrite fst_zip_route.
  - intros Hn. subst keys b. unfold booted, main_context.
    cbn [context with_context node_name]. now rewrite Hn.
Qed.

(** X16.  When one of the guards stops the registration, [main] sets up
    and runs the server all the same, with no route: nothing is sent to
    the store from the start of [main] to its end. *)
Theorem main_without_route w st r :
  ends setup_process (Ok ()) → ends load_settings (Ok (Some st)) →
  ends prepare (Ok ()) → ends make_app (Ok ()) → ends make_api (Ok ()) →
  ends finish_setup (Ok ()) →
  ends run_server r → ends deinit_modules (Ok ()) →
  guards_pass (booted st w) = false →
  ∃ w' t,
    main_ w = (ending r, w')
    ∧ trace w' = trace w ++ t
    ∧ store_io t = []
    ∧ kv w' = kv w
    ∧ faults w' = faults w.
Proof.
  intros Hs Hl Hp Ha Hi Hf Hr Hd Hg.
  destruct (main_boot w st Hs Hl Hp Ha Hi Hf) as (t0 & S0 & E0).
  destruct (serve_skipped r (booted st w) None (kv w) (faults w) (trace w ++ t0)
              Hg Hr Hd) as (t1 & E1 & S1).
  rewrite E1 in E0. rewrite <- (assoc_L (++)) in E0.
  do 2 eexists. split; [exact E0|].
  split; [reflexivity|]. split; [now rewrite store_io_app, S0, S1|].
  split; reflexivity.
Qed.

(** X17.  Started with [CORE_DEVELOPMENT_MODE] set to [true] or [yes],
    in any mix of upper and lower case, and not as the child of the
    reloader, [main] sends nothing to the store, whatever the
    settings. *)
Theorem main_development_mode w st r v :
  ends setup_process (Ok ()) → ends load_settings (Ok (Some st)) →
  ends prepare (Ok ()) → ends make_app (Ok ()) → ends make_api (Ok ()) →
  ends finish_setup (Ok ()) →
  ends run_server r → ends deinit_modules (Ok ()) →
  environ w !! "CORE_DEVELOPMENT_MODE" = Some v →
  str_lower v = "true" ∨ str_lower v = "yes" →
  environ w !! "WERKZEUG_RUN_MAIN" ≠ Some "true" →
  ∃ w' t,
    main_ w = (ending r, w')
    ∧ trace w' = trace w ++ t
    ∧ store_io t = []
    ∧ kv w' = kv w.
Proof.
  intros Hs Hl Hp Ha Hi Hf Hr Hd Hv Hlow Hmark.
  assert (guards_pass (booted st w) = false) as Hg.
  { apply dev_mode_skip_guards. unfold dev_mode_skip, booted, main_context.
    cbn [context with_context debug environ].
    unfold CORE_DEVELOPMENT_MODE. rewrite Hv. cbn [from_option id].
    rewrite bool_decide_eq_true_2, bool_decide_eq_false_2; [done..|].
    destruct Hlow as [-> | ->];
      repeat (first [apply list_elem_of_here | apply list_elem_of_further]). }
  destruct (main_boot w st Hs Hl Hp Ha Hi Hf) as (t0 & S0 & E0).
  destruct (serve_skipped r (booted st w) None (kv w) (faults w) (trace w ++ t0)
              Hg Hr Hd) as (t1 & E1 & S1).
  rewrite E1 in E0. rewrite <- (assoc_L (++)) in E0.
  do 2 eexists. split; [exact E0|].
  split; [reflexivity|]. split; [now rewrite store_io_app, S0, S1|].
  reflexivity.
Qed.

(** X18.  When the store refuses one of the four writes of the
    registration, the exception leaves [main] at once: the server is not
    run and the [finally] part is not reached, so the records written
    before the refusal stay in the store. *)
Theorem main_registration_refused w st (i : nat) rest :
  ends setup_process (Ok ()) → ends load_settings (Ok (Some st)) →
  ends prepare (Ok ()) → ends make_app (Ok ()) → ends make_api (Ok ()) →
  ends finish_setup (Ok ()) →
  guards_pass (booted st w) = true →
  faults w = replicate i false ++ true :: rest → (i < 4)%nat →
  let b := booted st w in
  let keys := route_keys (root_key_of b) (node_name (context b)) in
  let values := route_values SERVER_DEFAULT_PORT b in
  ∃ w' t,
    main_ w = (Raised ConnectionError, w')
    ∧ trace w' = trace w ++ t
    ∧ store_io t
      = Connect (default "localhost" (redis_of b !! "host"))
                (redis_of b !! "password")
        :: take (S i) (zip_with RedisSet keys values)
    ∧ kv w' = foldl (λ m kx, <[kx.1 := kx.2]> m) (kv w)
                    (take i (zip keys values))
    ∧ keys_of w' = Some [].
Proof.
  intros Hs Hl Hp Ha Hi Hf Hg Hfs Hlt b keys values.
  destruct (main_boot w st Hs Hl Hp Ha Hi Hf) as (t0 & S0 & E0). fold b in E0.
  rewrite Hfs in E0.
  rewrite (serve_register_refused b None (kv w) i rest (trace w ++ t0) Hg Hlt)
    in E0.
  rewrite <- (assoc_L (++)) in E0.
  do 2 eexists. split; [exact E0|].
  split; [reflexivity|].
  split; [|split; reflexivity].
  now rewrite store_io_app, S0, store_io_opening, store_io_take_sets.
Qed.

(** X19.  When the store answers the four writes and refuses one of the
    deletions of the clean-up, that exception is the one that leaves
    [main], whether the server had returned or raised; the modules are
    not shut down, and the keys not yet reached stay on the list and in
    the store. *)
Theorem main_retraction_refused w st r (i : nat) rest :
  ends setup_process (Ok ()) → ends load_settings (Ok (Some st)) →
  ends prepare (Ok ()) → ends make_app (Ok ()) → ends make_api (Ok ()) →
  ends finish_setup (Ok ()) →
  ends run_server r →
  guards_pass (booted st w) = true →
  faults w = replicate 4 false ++ replicate i false ++ true :: rest →
  (i < 4)%nat →
  let b := booted st w in
  let keys := route_keys (root_key_of b) (node_name (context b)) in
  ∃ w' t,
    main_ w = (Raised ConnectionError, w')
    ∧ trace w' = trace w ++ t
    ∧ deleted_keys t = take (S i) (reverse keys)
    ∧ keys_of w' = Some (take (4 - S i) keys)
    ∧ ∀ k v, (k, v) ∈ take (4 - i) (zip keys (route_values SERVER_DEFAULT_PORT b)) →
             kv w' !! k = Some v.
Proof.
  intros Hs Hl Hp Ha Hi Hf Hr Hg Hfs Hlt b keys.
  destruct (main_boot w st Hs Hl Hp Ha Hi Hf) as (t0 & S0 & E0). fold b in E0.
  rewrite Hfs in E0.
  destruct (serve_unregister_refused r b None (kv w) i rest (trace w ++ t0)
              Hg Hlt Hr) as (t1 & E1 & S1).
  rewrite E1 in E0. rewrite <- (assoc_L (++)) in E0.
  do 2 eexists. split; [exact E0|].
  split; [reflexivity|].
  split.
  { rewrite <- deleted_keys_store_io, store_io_app, S0, S1. cbn [app].
    rewrite deleted_keys_connect, deleted_keys_app, deleted_keys_sets.
    rewrite deleted_keys_connect, deleted_keys_deletes. reflexivity. }
  split; [reflexivity|].
  intros k v Hkv. cbn [kv at_].
  pose proof (route_keys_NoDup (root_key_of b) (node_name (context b))) as Hnd.
  fold keys in Hnd.
  assert (k ∈ take (4 - i) keys) as Hk.
  { subst keys. rewrite <- (fst_zip_route SERVER_DEFAULT_PORT), <- fmap_take.
    apply list_elem_of_fmap. now exists (k, v). }
  rewrite lookup_foldr_delete_notin.
  - apply lookup_foldl_insert.
    + now rewrite fst_zip_route.
    + eapply subseteq_take, Hkv.
  - rewrite <- (take_drop (4 - i) keys) in Hnd.
    apply NoDup_app in Hnd as (_ & Hdis & _). now apply Hdis.
Qed.

End MainProperties.

(** ** The further properties on sample worlds *)

Lemma ends_ret {A} (a : A) : ends (ret a) (Ok a).
Proof.
  intros w. exists []. split; [|reflexivity].
  unfold ret. rewrite (right_id_L [] (++)). now destruct w.
Qed.

Lemma ends_raise {A} e : ends (raise (A:=A) e) (Raised e).
Proof.
  intros w. exists []. split; [|reflexivity].
  unfold raise. rewrite (right_id_L [] (++)). now destruct w.
Qed.

Lemma ends_log_info msg : ends (log_info msg) (Ok ()).
Proof. intros w. exists [Log INFO msg]. split; reflexivity. Qed.

Lemma register_missing_config_witness :
  let w := sample_world false None (Some ["a"]) [] in
  config_missing w = true
  ∧ ∃ w', register_traefik_route (SInt 8080) w = (Ok (), w')
          ∧ keys_of w' = Some []
          ∧ store_io (trace w') = [].
Proof.
  intros w.
  assert (config_missing w = true) as Hc by (vm_compute; reflexivity).
  split; [exact Hc|].
  destruct (register_missing_config (SInt 8080) w Hc)
    as (w' & lvl & msg & E & _ & _ & S & K & _).
  exists w'. split; [exact E|]. split; [exact K|]. rewrite S. reflexivity.
Defined.

Lemma register_any_write_refused_witness :
  let w := sample_world false (Some sample_config) None [true] in
  guards_pass w = true
  ∧ ∃ w', register_traefik_route (SInt 8080) w = (Raised ConnectionError, w')
          ∧ keys_of w' = Some []
          ∧ kv w' = ∅.
Proof.
  intros w.
  assert (guards_pass w = true) as Hg by (vm_compute; reflexivity).
  split; [exact Hg|].
  destruct (register_any_write_refused (SInt 8080) w 0 [] Hg eq_refl
              ltac:(cbn; lia))
    as (w' & t & E & K & _ & _ & Hkv & _).
  exists w'. split; [exact E|]. split; [exact K|]. exact Hkv.
Defined.

Lemma register_then_lookup_witness :
  let w := sample_world false (Some sample_config) None [] in
  guards_pass w = true
  ∧ ∃ w', register_traefik_route (SInt 8080) w = (Ok (), w')
          ∧ kv w' !! "traefik/http/routers/n1/service" = Some "n1".
Proof.
  intros w.
  assert (guards_pass w = true) as Hg by (vm_compute; reflexivity).
  split; [exact Hg|].
  destruct (register_then_lookup (SInt 8080) w Hg eq_refl)
    as (w' & E & _ & _ & _ & S & _).
  exists w'. split; [exact E | exact S].
Defined.

Lemma register_twice_witness :
  let w := sample_world false (Some sample_config) None [] in
  guards_pass w = true
  ∧ ∃ w1 w2, register_traefik_route (SInt 8080) w = (Ok (), w1)
             ∧ register_traefik_route (SInt 8080) w1 = (Ok (), w2)
             ∧ kv w2 = kv w1
             ∧ keys_of w2 = Some (route_keys "traefik" "n1").
Proof.
  intros w.
  assert (guards_pass w = true) as Hg by (vm_compute; reflexivity).
  split; [exact Hg|].
  destruct (register_twice (SInt 8080) w Hg eq_refl)
    as (w1 & w2 & t1 & t2 & E1 & E2 & _ & _ & _ & Hkv & _ & K).
  exists w1, w2. split; [exact E1|]. split; [exact E2|].
  split; [exact Hkv | exact K].
Defined.

Lemma unregister_before_register_witness :
  let w := sample_world false (Some sample_config) None [] in
  guards_pass w = true
  ∧ keys_of w = None
  ∧ ∃ w', unregister_traefik_route w = (Raised AttributeError, w')
          ∧ deleted_keys (trace w') = [].
Proof.
  intros w.
  assert (guards_pass w = true) as Hg by (vm_compute; reflexivity).
  split; [exact Hg|]. split; [reflexivity|].
  destruct (unregister_before_register w Hg eq_refl) as (w' & E & T & _).
  exists w'. split; [exact E|]. rewrite T. reflexivity.
Defined.

Lemma unregister_twice_witness :
  let w := sample_world false (Some sample_config) (Some ["a"; "b"]) [] in
  guards_pass w = true
  ∧ ∃ w1 w2, unregister_traefik_route w = (Ok (), w1)
             ∧ unregister_traefik_route w1 = (Ok (), w2)
             ∧ kv w2 = kv w1.
Proof.
  intros w.
  assert (guards_pass w = true) as Hg by (vm_compute; reflexivity).
  split; [exact Hg|].
  destruct (unregister_twice w ["a"; "b"] Hg eq_refl eq_refl)
    as (w1 & w2 & E1 & E2 & _ & Hkv & _).
  exists w1, w2. split; [exact E1|]. split; [exact E2 | exact Hkv].
Defined.

Lemma unregister_frame_witness :
  let w := with_kv {[ "a" := "1"; "c" := "3" ]}
             (sample_world false (Some sample_config) (Some ["a"; "b"]) []) in
  guards_pass w = true
  ∧ ∃ w', unregister_traefik_route w = (Ok (), w')
          ∧ kv w' !! "a" = None
          ∧ kv w' !! "c" = Some "3".
Proof.
  intros w.
  assert (guards_pass w = true) as Hg by (vm_compute; reflexivity).
  split; [exact Hg|].
  destruct (unregister_frame w ["a"; "b"] Hg eq_refl eq_refl)
    as (w' & E & Hin & Hout & _).
  exists w'. split; [exact E|]. split.
  - apply Hin. apply list_elem_of_here.
  - rewrite Hout; [reflexivity|].
    intros H. repeat (apply elem_of_cons in H as [H|H]; [discriminate H|]).
    by apply elem_of_nil in H.
Defined.

Lemma same_connection_witness :
  let w := sample_world false (Some sample_config) (Some ["a"]) [] in
  guards_pass w = true
  ∧ connections (trace (register_traefik_route (SInt 8080) w).2)
    = [("redis", None)]
  ∧ connections (trace (unregister_traefik_route w).2) = [("redis", None)].
Proof.
  intros w.
  assert (guards_pass w = true) as Hg by (vm_compute; reflexivity).
  split; [exact Hg|].
  destruct (same_connection (SInt 8080) w Hg) as (host & C1 & C2 & Hh & _).
  rewrite (Hh "redis" eq_refl) in C1, C2. split; [exact C1 | exact C2].
Defined.

Lemma routes_of_two_nodes_witness :
  let w1 := sample_world false (Some sample_config) None [] in
  let w2 := sample_start ∅ [] in
  let v2 := booted sample_settings w2 in
  guards_pass w1 = true
  ∧ guards_pass v2 = true
  ∧ node_name (context w1) ≠ node_name (context v2)
  ∧ "traefik/http/routers/n1/rule"
    ∉ default [] (keys_of (register_traefik_route (SInt 8080) v2).2).
Proof.
  intros w1 w2 v2.
  assert (guards_pass w1 = true) as Hg1 by (vm_compute; reflexivity).
  assert (guards_pass v2 = true) as Hg2 by (vm_compute; reflexivity).
  assert (node_name (context w1) ≠ node_name (context v2)) as Hne
    by (vm_compute; discriminate).
  split; [exact Hg1|]. split; [exact Hg2|]. split; [exact Hne|].
  apply (routes_of_two_nodes (SInt 8080) w1 v2 Hg1 eq_refl Hg2 eq_refl
           eq_refl Hne).
  rewrite register_Ok_here by done. apply list_elem_of_here.
Defined.


Lemma unregister_uses_recorded_keys_witness :
  let w := sample_world false (Some sample_config) None [] in
  let w1 := (register_traefik_route (SInt 8080) w).2 in
  let changed := {| tc_redis := Some {[ "host" := "elsewhere" ]};
                    tc_opts := {[ "rootkey" := "changed" ]} |} in
  let v := with_kv (kv w1)
             (sample_world false (Some changed) (keys_of w1) []) in
  guards_pass w = true
  ∧ guards_pass v = true
  ∧ root_key_of v ≠ root_key_of w
  ∧ ∃ v', unregister_traefik_route v = (Ok (), v')
          ∧ kv v' !! "traefik/http/routers/n1/rule" = None.
Proof.
  intros w w1 changed v.
  assert (guards_pass w = true) as Hg by (vm_compute; reflexivity).
  assert (guards_pass v = true) as Hgv by (vm_compute; reflexivity).
  split; [exact Hg|]. split; [exact Hgv|].
  split; [vm_compute; discriminate|].
  destruct (unregister_uses_recorded_keys (SInt 8080) w v Hg eq_refl Hgv eq_refl
              eq_refl eq_refl) as (v' & t & E & _ & _ & Hgone & _).
  exists v'. split; [exact E|]. apply Hgone. apply list_elem_of_here.
Defined.

Lemma main_without_settings_witness :
  ∃ w', sample_main (ret None) (ret ()) (sample_start ∅ []) = (Ok (Some 1%Z), w')
        ∧ kv w' = {[ "other" := "kept" ]}.
Proof.
  destruct (main_without_settings (SInt 8080) (log_info "logging enabled")
              (ret None) (ret ()) (ret ()) (ret ()) (log_info "modules ready")
              (ret ()) (log_info "modules gone") (sample_start ∅ [])
              (ends_log_info _) (ends_ret _))
    as (w' & t & E & _ & _ & _ & Hkv & _).
  exists w'. split; [exact E | exact Hkv].
Defined.

Lemma main_retracts_route_witness :
  let w := sample_start ∅ [] in
  guards_pass (booted sample_settings w) = true
  ∧ ∃ w', sample_main (ret (Some sample_settings)) (raise AttributeError) w
          = (Raised AttributeError, w')
          ∧ kv w' !! "traefik/http/routers/box/rule" = None
          ∧ kv w' !! "other" = Some "kept".
Proof.
  intros w.
  assert (guards_pass (booted sample_settings w) = true) as Hg
    by (vm_compute; reflexivity).
  split; [exact Hg|].
  destruct (main_retracts_route (SInt 8080) (log_info "logging enabled")
              (ret (Some sample_settings)) (ret ()) (ret ()) (ret ())
              (log_info "modules ready") (raise AttributeError)
              (log_info "modules gone") w sample_settings (Raised AttributeError)
              (ends_log_info _) (ends_ret _) (ends_ret _) (ends_ret _)
              (ends_ret _) (ends_log_info _) (ends_raise _) (ends_log_info _)
              Hg eq_refl)
    as (w' & t & E & _ & _ & Hgone & Hkept & _).
  exists w'. split; [exact E|]. split.
  - apply Hgone. apply list_elem_of_here.
  - rewrite Hkept; [reflexivity|].
    intros H. repeat (apply elem_of_cons in H as [H|H]; [discriminate H|]).
    by apply elem_of_nil in H.
Defined.

Lemma main_without_route_witness :
  let w := sample_start ∅ [] in
  let bare := {| st_traefik := None; st_server := None |} in
  guards_pass (booted bare w) = false
  ∧ ∃ w', sample_main (ret (Some bare)) (ret ()) w = (Ok None, w')
          ∧ store_io (trace w') = [].
Proof.
  intros w bare.
  assert (guards_pass (booted bare w) = false) as Hg by (vm_compute; reflexivity).
  split; [exact Hg|].
  destruct (main_without_route (SInt 8080) (log_info "logging enabled")
              (ret (Some bare)) (ret ()) (ret ()) (ret ())
              (log_info "modules ready") (ret ())
              (log_info "modules gone") w bare (Ok ())
              (ends_log_info _) (ends_ret _) (ends_ret _) (ends_ret _)
              (ends_ret _) (ends_log_info _) (ends_ret _) (ends_log_info _) Hg)
    as (w' & t & E & T & S & _).
  exists w'. split; [exact E|]. rewrite T. exact S.
Defined.

Lemma main_development_mode_witness :
  let w := sample_start {[ "CORE_DEVELOPMENT_MODE" := "True" ]} [] in
  environ w !! "CORE_DEVELOPMENT_MODE" = Some "True"
  ∧ str_lower "True" = "true"
  ∧ environ w !! "WERKZEUG_RUN_MAIN" ≠ Some "true"
  ∧ ∃ w', sample_main (ret (Some sample_settings)) (ret ()) w = (Ok None, w')
          ∧ store_io (trace w') = [].
Proof.
  intros w.
  assert (environ w !! "CORE_DEVELOPMENT_MODE" = Some "True") as Hv
    by (vm_compute; reflexivity).
  assert (environ w !! "WERKZEUG_RUN_MAIN" ≠ Some "true") as Hm
    by (vm_compute; discriminate).
  split; [exact Hv|]. split; [reflexivity|]. split; [exact Hm|].
  destruct (main_development_mode (SInt 8080) (log_info "logging enabled")
              (ret (Some sample_settings)) (ret ()) (ret ()) (ret ())
              (log_info "modules ready") (ret ())
              (log_info "modules gone") w sample_settings (Ok ()) "True"
              (ends_log_info _) (ends_ret _) (ends_ret _) (ends_ret _)
              (ends_ret _) (ends_log_info _) (ends_ret _) (ends_log_info _)
              Hv (or_introl eq_refl) Hm)
    as (w' & t & E & T & S & _).
  exists w'. split; [exact E|]. rewrite T. exact S.
Defined.

Lemma main_registration_refused_witness :
  let w := sample_start ∅ [false; true] in
  guards_pass (booted sample_settings w) = true
  ∧ ∃ w', sample_main (ret (Some sample_settings)) (ret ()) w
          = (Raised ConnectionError, w')
          ∧ kv w' !! "traefik/http/routers/box/rule" = Some "PathPrefix(`/`)"
          ∧ keys_of w' = Some [].
Proof.
  intros w.
  assert (guards_pass (booted sample_settings w) = true) as Hg
    by (vm_compute; reflexivity).
  split; [exact Hg|].
  destruct (main_registration_refused (SInt 8080) (log_info "logging enabled")
              (ret (Some sample_settings)) (ret ()) (ret ()) (ret ())
              (log_info "modules ready") (ret ())
              (log_info "modules gone") w sample_settings 1 []
              (ends_log_info _) (ends_ret _) (ends_ret _) (ends_ret _)
              (ends_ret _) (ends_log_info _) Hg eq_refl ltac:(cbn; lia))
    as (w' & t & E & _ & _ & Hkv & K).
  exists w'. split; [exact E|]. split; [|exact K].
  rewrite Hkv. vm_compute. reflexivity.
Defined.

Lemma main_retraction_refused_witness :
  let w := sample_start ∅ [false; false; false; false; true] in
  guards_pass (booted sample_settings w) = true
  ∧ ∃ w', sample_main (ret (Some sample_settings)) (ret ()) w
          = (Raised ConnectionError, w')
          ∧ keys_of w' = Some (take 3 (route_keys "traefik" "box")).
Proof.
  intros w.
  assert (guards_pass (booted sample_settings w) = true) as Hg
    by (vm_compute; reflexivity).
  split; [exact Hg|].
  destruct (main_retraction_refused (SInt 8080) (log_info "logging enabled")
              (ret (Some sample_settings)) (ret ()) (ret ()) (ret ())
              (log_info "modules ready") (ret ())
              (log_info "modules gone") w sample_settings (Ok ()) 0 []
              (ends_log_info _) (ends_ret _) (ends_ret _) (ends_ret _)
              (ends_ret _) (ends_log_info _) (ends_ret _) Hg eq_refl
              ltac:(cbn; lia))
    as (w' & t & E & _ & _ & K & _).
  exists w'. split; [exact E | exact K].
Defined.

Lemma register_lists_stored_keys_witness :
  let w := sample_world false (Some sample_config) None [] in
  let w' := (register_traefik_route (SInt 8080) w).2 in
  "traefik/http/routers/n1/rule" ∈ default [] (keys_of w')
  ∧ is_Some (kv w' !! "traefik/http/routers/n1/rule").
Proof.
  intros w w'.
  assert ("traefik/http/routers/n1/rule" ∈ default [] (keys_of w')) as Hin
    by (vm_compute; apply list_elem_of_here).
  split; [exact Hin|].
  exact (register_lists_stored_keys (SInt 8080) w _ Hin).
Defined.
